(** * Music Time: state synchronisation core

    A shallow embedding of the parts of [lib/DataController.ts] and
    [lib/music/MusicPlaylistProvider.ts] that decide how the cached view of
    the user's playback state is kept in step with the remote backend:
    the [/ping] memoisation, the user/auth status classification, the two
    bounded connection polls, the playlist fetch with its retry, the
    liked-song seeding batches and the play-request dispatcher.

    Asynchronous functions are written as state transformers.  The value a
    remote call resolves to is an argument of the transformer, timers are
    entries of an explicit timer queue, and a raised [TypeError] is a
    constructor of the result type. *)

From Stdlib Require Import ZArith List String Bool Lia.
From stdpp Require Import base gmap strings list.
Import ListNotations.

Local Open Scope string_scope.
Local Open Scope list_scope.

(** ** JavaScript values and truthiness *)

Module Js.

Inductive jsval : Type :=
| VUndefined
| VNull
| VBool (b : bool)
| VNum (z : Z)
| VStr (s : string).

(** [ToBoolean] restricted to the values above. *)
Definition truthy (v : jsval) : bool :=
  match v with
  | VUndefined | VNull => false
  | VBool b => b
  | VNum z => negb (z =? 0)%Z
  | VStr s => negb (String.eqb s "")
  end.

(** [a || b] *)
Definition or_else (a b : jsval) : jsval := if truthy a then a else b.

(** [v === null] *)
Definition is_null (v : jsval) : bool :=
  match v with VNull => true | _ => false end.

(** Truthiness of a string that may be absent ([undefined]). *)
Definition truthy_str (o : option string) : bool :=
  match o with
  | None => false
  | Some s => negb (String.eqb s "")
  end.

(** What a remote call settles to: the promise resolves with a response or
    rejects. *)
Inductive settled (R : Type) : Type :=
| Resolved (r : R)
| Rejected.
Arguments Resolved {R} r.
Arguments Rejected {R}.

(** How a call ends: with a value, or with a raised [TypeError] (reading a
    property of [undefined] or [null], spreading a value that is not
    iterable). *)
Inductive completion (A : Type) : Type :=
| Returned (a : A)
| Threw (msg : string).
Arguments Returned {A} a.
Arguments Threw {A} msg.

Definition returned {A : Type} (c : completion A) : bool :=
  match c with Returned _ => true | Threw _ => false end.

End Js.

(** ** [serverIsAvailable] and the session cache *)

Module ServerPing.
Import Js.

(** Modelled from the spec: the session cache ([lib/cache/CacheManager]) is
    a key/value memoisation layer with a short time to live.  [get] of a key
    that was never stored, or whose entry has expired, is [undefined]; [set]
    stores the value under the key.  Expiry is the removal of the entry. *)
Definition cache_get (k : string) (c : gmap string jsval) : jsval :=
  default VUndefined (c !! k).

Definition cache_set (k : string) (v : jsval) (c : gmap string jsval)
  : gmap string jsval := <[k := v]> c.

Definition cache_expire (k : string) (c : gmap string jsval)
  : gmap string jsval := delete k c.

Record World : Type := mkWorld {
  cache : gmap string jsval;       (* cacheMgr *)
  requests : list string           (* paths of the remote GETs issued so far *)
}.

Section WithHttp.

(** A response of the HTTP client and the client's own success test
    ([isResponseOk] of [lib/HttpClient]). *)
Variable Response : Type.
Variable isResponseOk : Response -> bool.

(** [softwareGet("/ping", null).then(isResponseOk).catch(() => false)] *)
Definition ping (net : settled Response) (w : World) : jsval * World :=
  let w' := mkWorld (cache w) (requests w ++ ["/ping"]) in
  match net with
  | Resolved r => (VBool (isResponseOk r), w')
  | Rejected => (VBool false, w')
  end.

Definition serverIsAvailable (net : settled Response) (w : World)
  : jsval * World :=
  let serverAvailable := or_else (cache_get "serverAvailable" (cache w)) VNull in
  let '(serverAvailable, w) :=
    if is_null serverAvailable then ping net w else (serverAvailable, w) in
  let w :=
    if negb (is_null serverAvailable)
    then mkWorld (cache_set "serverAvailable" serverAvailable (cache w))
                 (requests w)
    else w in
  (serverAvailable, w).

(** Two calls in a row, nothing expiring in between. *)
Definition serverIsAvailable_twice (net1 net2 : settled Response) (w : World)
  : jsval * jsval * World :=
  let '(r1, w1) := serverIsAvailable net1 w in
  let '(r2, w2) := serverIsAvailable net2 w1 in
  (r1, r2, w2).

End WithHttp.

End ServerPing.

(** ** [getMusicTimeUserStatus] *)

Module UserStatus.
Import Js.

(** One authorization record of the user document. *)
Record Auth : Type := mkAuth {
  auth_type : option string;       (* auth.type *)
  access_token : option string     (* auth.access_token *)
}.

Record User : Type := mkUser {
  auths : option (list Auth)       (* user.auths *)
}.

(** The body of [GET /users/plugin/state] ([resp.data]). *)
Record Body : Type := mkBody {
  body_state : option string;      (* data.state *)
  body_email : option string;      (* data.email *)
  body_jwt : option string;        (* data.jwt *)
  body_user : option User          (* data.user *)
}.

Record Response : Type := mkResponse {
  status : Z;
  data : option Body
}.

(** What the function returns: [{ loggedOn, state }]. *)
Record Status : Type := mkStatus {
  loggedOn : bool;
  state : string
}.

Record World : Type := mkWorld {
  items : gmap string jsval;       (* the item store behind getItem/setItem *)
  requests : list string;          (* paths of the remote GETs issued so far *)
  spotify_updates : list Auth;     (* arguments of updateSpotifyAccessInfo *)
  slack_updates : list Auth        (* arguments of updateSlackAccessInfo *)
}.

(** Modelled from the spec: the item store of [lib/Util] ([getItem],
    [setItem]); the spec only says that "a token is available or not".  A
    key that was never set reads as [null]. *)
Definition getItem (k : string) (w : World) : jsval :=
  default VNull (items w !! k).

Definition setItem (k : string) (v : jsval) (w : World) : World :=
  mkWorld (<[k := v]> (items w)) (requests w) (spotify_updates w)
          (slack_updates w).

Definition log_request (path : string) (w : World) : World :=
  mkWorld (items w) (requests w ++ [path]) (spotify_updates w)
          (slack_updates w).

(** Modelled from the spec: [MusicManager.updateSpotifyAccessInfo] and
    [updateSlackAccessInfo] update the integration's cached credentials; here
    the record handed over is appended to the integration's update list. *)
Definition updateSpotifyAccessInfo (a : Auth) (w : World) : World :=
  mkWorld (items w) (requests w) (spotify_updates w ++ [a]) (slack_updates w).

Definition updateSlackAccessInfo (a : Auth) (w : World) : World :=
  mkWorld (items w) (requests w) (spotify_updates w) (slack_updates w ++ [a]).

Definition str_is (o : option string) (s : string) : bool :=
  match o with Some t => String.eqb t s | None => false end.

(** [auth.type === "spotify" && auth.access_token] *)
Definition is_spotify_auth (a : Auth) : bool :=
  str_is (auth_type a) "spotify" && truthy_str (access_token a).

(** The body of the [for] loop over [user.auths]. *)
Definition auth_step (acc : bool * World) (a : Auth) : bool * World :=
  let '(foundSpotifyAuth, w) := acc in
  if is_spotify_auth a then (true, updateSpotifyAccessInfo a w)
  else if str_is (auth_type a) "slack"
       then (foundSpotifyAuth, updateSlackAccessInfo a w)
       else (foundSpotifyAuth, w).

Definition auth_loop (l : list Auth) (w : World) : bool * World :=
  fold_left auth_step l (false, w).

Section WithHttp.

(** The HTTP client's success test ([isResponseOk] of [lib/HttpClient]). *)
Variable isResponseOk : Response -> bool.

(** [resp] is what [softwareGet("/users/plugin/state", ...)] resolves to; it
    is only consulted when the request is made. *)
Definition getMusicTimeUserStatus (resp : Response) (w : World)
  : completion Status * World :=
  let jwt := getItem "jwt" w in
  let spotify_refresh_token := getItem "spotify_refresh_token" w in
  if truthy jwt || truthy spotify_refresh_token then
    let w := log_request "/users/plugin/state" w in
    match (if isResponseOk resp then data resp else None) with
    | Some d =>
      let state :=
        match body_state d with
        | Some s => if truthy_str (Some s) then s else "UNKNOWN"
        | None => "UNKNOWN"
        end in
      if String.eqb state "OK" then
        let w := match body_email d with
                 | Some e => if truthy_str (Some e)
                             then setItem "name" (VStr e) w else w
                 | None => w
                 end in
        let w := match body_jwt d with
                 | Some j => if truthy_str (Some j)
                             then setItem "jwt" (VStr j) w else w
                 | None => w
                 end in
        match body_user d with
        | None => (Threw "Cannot read property 'auths' of undefined", w)
        | Some user =>
          let '(foundSpotifyAuth, w) :=
            match auths user with
            | Some l => if (0 <? length l)%nat then auth_loop l w
                        else (false, w)
            | None => (false, w)
            end in
          (Returned (mkStatus foundSpotifyAuth state), w)
        end
      else (Returned (mkStatus false state), w)
    | None => (Returned (mkStatus false "UNKNOWN"), w)
    end
  else (Returned (mkStatus false "UNKNOWN"), w).

End WithHttp.

(** [jwt || spotify_refresh_token] *)
Definition token_available (w : World) : bool :=
  truthy (getItem "jwt" w) || truthy (getItem "spotify_refresh_token" w).

(** The state the function classifies a body as. *)
Definition classify (d : Body) : string :=
  match body_state d with
  | Some s => if truthy_str (Some s) then s else "UNKNOWN"
  | None => "UNKNOWN"
  end.

(** Whether some record of the user document is a spotify authorization with a
    usable token. *)
Definition has_spotify_auth (d : Body) : bool :=
  match body_user d with
  | Some u => match auths u with
              | Some l => existsb is_spotify_auth l
              | None => false
              end
  | None => false
  end.

(** The weaker test the name suggests: a record whose type is spotify. *)
Definition has_spotify_record (d : Body) : bool :=
  match body_user d with
  | Some u => match auths u with
              | Some l => existsb (fun a => str_is (auth_type a) "spotify") l
              | None => false
              end
  | None => false
  end.

End UserStatus.

(** ** The connection polls: [refetchSlackConnectStatusLazily],
       [refetchSpotifyConnectStatusLazily] and their handlers *)

Module Polling.
Import Js.

(** What a timer does when it fires. *)
Inductive callback : Type :=
| SlackTick (tryCountUntilFound : Z)     (* set by the slack entry point *)
| SpotifyTick (tryCountUntilFound : Z)   (* set by the spotify entry point *)
| HardRefreshPlaylist.                   (* "musictime.hardRefreshPlaylist" *)

Record timer : Type := mkTimer {
  tid : nat;            (* the handle setTimeout returned *)
  delay : Z;            (* milliseconds *)
  cb : callback
}.

(** A handler suspended at an [await]: at its check, with the count it was
    called with, or, for the spotify handler once it is connected, at one of
    the two loads that follow. *)
Inductive suspended : Type :=
| SlackHandler (tryCountUntilFound : Z)      (* await getSlackOauth() *)
| SpotifyHandler (tryCountUntilFound : Z)    (* await getMusicTimeUserStatus() *)
| SpotifyUserLoad                            (* await populateSpotifyUser() *)
| SpotifyLikedSongsLoad.                     (* await populateLikedSongs() *)

Record State : Type := mkState {
  slackFetchTimeout : option nat;      (* module variable: handle or null *)
  spotifyFetchTimeout : option nat;    (* module variable: handle or null *)
  queue : list timer;                  (* timers set and not yet fired *)
  next_tid : nat;                      (* next fresh handle *)
  awaiting : list suspended;           (* handlers waiting for their answer *)
  set_log : list (Z * callback);       (* every setTimeout call, in order *)
  checks : list suspended;             (* every check started, in order *)
  messages : list string               (* window.showInformationMessage *)
}.

Definition init : State := mkState None None [] 0 [] [] [] [].

(** [setTimeout(cb, delay)]: the timer joins the queue under a fresh handle. *)
Definition setTimeout (c : callback) (d : Z) (st : State) : nat * State :=
  let h := next_tid st in
  (h, mkState (slackFetchTimeout st) (spotifyFetchTimeout st)
              (queue st ++ [mkTimer h d c]) (S h) (awaiting st)
              (set_log st ++ [(d, c)]) (checks st) (messages st)).

Definition set_slackFetchTimeout (v : option nat) (st : State) : State :=
  mkState v (spotifyFetchTimeout st) (queue st) (next_tid st) (awaiting st)
          (set_log st) (checks st) (messages st).

Definition set_spotifyFetchTimeout (v : option nat) (st : State) : State :=
  mkState (slackFetchTimeout st) v (queue st) (next_tid st) (awaiting st)
          (set_log st) (checks st) (messages st).

Definition set_queue (q : list timer) (st : State) : State :=
  mkState (slackFetchTimeout st) (spotifyFetchTimeout st) q (next_tid st)
          (awaiting st) (set_log st) (checks st) (messages st).

Definition set_awaiting (a : list suspended) (st : State) : State :=
  mkState (slackFetchTimeout st) (spotifyFetchTimeout st) (queue st)
          (next_tid st) a (set_log st) (checks st) (messages st).

Definition suspend (h : suspended) (st : State) : State :=
  mkState (slackFetchTimeout st) (spotifyFetchTimeout st) (queue st)
          (next_tid st) (awaiting st ++ [h]) (set_log st) (checks st ++ [h])
          (messages st).

(** A handler that is already running stops at a further [await]. *)
Definition wait (h : suspended) (st : State) : State :=
  mkState (slackFetchTimeout st) (spotifyFetchTimeout st) (queue st)
          (next_tid st) (awaiting st ++ [h]) (set_log st) (checks st)
          (messages st).

Definition showInformationMessage (m : string) (st : State) : State :=
  mkState (slackFetchTimeout st) (spotifyFetchTimeout st) (queue st)
          (next_tid st) (awaiting st) (set_log st) (checks st)
          (messages st ++ [m]).

Definition refetchSlackConnectStatusLazily (tryCountUntilFound : Z)
  (st : State) : State :=
  match slackFetchTimeout st with
  | Some _ => st
  | None =>
    let '(h, st) := setTimeout (SlackTick tryCountUntilFound) 10000 st in
    set_slackFetchTimeout (Some h) st
  end.

Definition refetchSpotifyConnectStatusLazily (tryCountUntilFound : Z)
  (st : State) : State :=
  match spotifyFetchTimeout st with
  | Some _ => st
  | None =>
    let '(h, st) := setTimeout (SpotifyTick tryCountUntilFound) 10000 st in
    set_spotifyFetchTimeout (Some h) st
  end.

(** [slackConnectStatusHandler] after [await getSlackOauth()] has answered;
    [oauth] is the record found, if any. *)
Definition slackConnectStatusHandler (tryCountUntilFound : Z)
  (oauth : option UserStatus.Auth) (st : State) : State :=
  match oauth with
  | None =>
    if (0 <? tryCountUntilFound)%Z
    then refetchSlackConnectStatusLazily (tryCountUntilFound - 1) st
    else st
  | Some _ => showInformationMessage "Successfully connected to Slack" st
  end.

(** [spotifyConnectStatusHandler] after [await getMusicTimeUserStatus()] has
    answered, up to its next [await].  A raised error rejects the handler's
    promise and nothing more of the handler runs.  The connected branch shows
    its message and stops at [await populateSpotifyUser()]; the item it sets
    before ([requiresSpotifyReAuth]) is not part of this state. *)
Definition spotifyConnectStatusHandler (tryCountUntilFound : Z)
  (oauthResult : completion UserStatus.Status) (st : State) : State :=
  match oauthResult with
  | Threw _ => st
  | Returned r =>
    if negb (UserStatus.loggedOn r) then
      if (0 <? tryCountUntilFound)%Z
      then refetchSpotifyConnectStatusLazily (tryCountUntilFound - 1) st
      else st
    else
      let st := showInformationMessage
                  "Successfully connected to Spotify. Loading playlists..." st in
      wait SpotifyUserLoad st
  end.

(** The connected branch after [await populateSpotifyUser()]: [loaded] is how
    the load ended.  When it raised, nothing more of the handler runs;
    otherwise the handler stops at [await populateLikedSongs()]. *)
Definition spotifyConnectedAfterUser (loaded : completion unit) (st : State)
  : State :=
  match loaded with
  | Threw _ => st
  | Returned _ => wait SpotifyLikedSongsLoad st
  end.

(** The connected branch after [await populateLikedSongs()]: [loaded] is how
    the load and the loop over the loaded songs ended (the loop raises when
    what was loaded is truthy and not a list of tracks).  When they raised,
    nothing more of the handler runs; otherwise the seed call is made, whose
    promise nobody waits for, and the playlist build is set to run after
    2000 ms.  The songs and the seed requests are not part of this state. *)
Definition spotifyConnectedAfterLikedSongs (loaded : completion unit)
  (st : State) : State :=
  match loaded with
  | Threw _ => st
  | Returned _ => snd (setTimeout HardRefreshPlaylist 2000 st)
  end.

(** The body of a timer's callback, up to the handler's first [await]. *)
Definition run_callback (c : callback) (st : State) : State :=
  match c with
  | SlackTick n => suspend (SlackHandler n) (set_slackFetchTimeout None st)
  | SpotifyTick n => suspend (SpotifyHandler n) (set_spotifyFetchTimeout None st)
  | HardRefreshPlaylist => st
  end.

(** The runtime fires the timer with handle [h], if it is outstanding. *)
Definition fire (h : nat) (st : State) : option State :=
  match List.find (fun t => Nat.eqb (tid t) h) (queue st) with
  | Some t =>
    let q := List.filter (fun t => negb (Nat.eqb (tid t) h)) (queue st) in
    Some (run_callback (cb t) (set_queue q st))
  | None => None
  end.

(** The answer a suspended handler is resumed with. *)
Inductive answer : Type :=
| SlackAnswer (oauth : option UserStatus.Auth)
| SpotifyAnswer (oauthResult : completion UserStatus.Status)
| LoadAnswer (loaded : completion unit).

Definition remove_nth {A : Type} (i : nat) (l : list A) : list A :=
  firstn i l ++ skipn (S i) l.

(** The [i]-th suspended handler receives its answer and runs to its next
    [await] or to its end. *)
Definition resume (i : nat) (a : answer) (st : State) : option State :=
  match nth_error (awaiting st) i, a with
  | Some (SlackHandler n), SlackAnswer oauth =>
    Some (slackConnectStatusHandler n oauth
            (set_awaiting (remove_nth i (awaiting st)) st))
  | Some (SpotifyHandler n), SpotifyAnswer r =>
    Some (spotifyConnectStatusHandler n r
            (set_awaiting (remove_nth i (awaiting st)) st))
  | Some SpotifyUserLoad, LoadAnswer loaded =>
    Some (spotifyConnectedAfterUser loaded
            (set_awaiting (remove_nth i (awaiting st)) st))
  | Some SpotifyLikedSongsLoad, LoadAnswer loaded =>
    Some (spotifyConnectedAfterLikedSongs loaded
            (set_awaiting (remove_nth i (awaiting st)) st))
  | _, _ => None
  end.

(** What can happen to the module: a caller enters one of the two entry
    points, the runtime fires an outstanding timer, a suspended handler is
    answered. *)
Inductive event : Type :=
| CallSlack (tryCountUntilFound : Z)
| CallSpotify (tryCountUntilFound : Z)
| Fire (h : nat)
| Resume (i : nat) (a : answer).

Definition step (e : event) (st : State) : option State :=
  match e with
  | CallSlack n => Some (refetchSlackConnectStatusLazily n st)
  | CallSpotify n => Some (refetchSpotifyConnectStatusLazily n st)
  | Fire h => fire h st
  | Resume i a => resume i a st
  end.

Inductive reachable : State -> Prop :=
| reach_init : reachable init
| reach_step e st st' :
    reachable st -> step e st = Some st' -> reachable st'.

Definition is_slack (c : callback) : bool :=
  match c with SlackTick _ => true | _ => false end.

Definition is_spotify (c : callback) : bool :=
  match c with SpotifyTick _ => true | _ => false end.

(** The outstanding timers of each condition. *)
Definition slack_timers (st : State) : list timer :=
  List.filter (fun t => is_slack (cb t)) (queue st).

Definition spotify_timers (st : State) : list timer :=
  List.filter (fun t => is_spotify (cb t)) (queue st).

(** The answer "not connected" for a handler suspended at its check; a
    load, which only a connected handler reaches, just completes. *)
Definition unmet (h : suspended) : answer :=
  match h with
  | SlackHandler _ => SlackAnswer None
  | SpotifyHandler _ =>
    SpotifyAnswer (Returned (UserStatus.mkStatus false "UNKNOWN"))
  | SpotifyUserLoad | SpotifyLikedSongsLoad => LoadAnswer (Returned tt)
  end.

(** One round of a poll whose condition is never met: the oldest timer fires
    and the handler it starts is told "not connected". *)
Definition unmet_round (st : State) : option State :=
  match queue st with
  | [] => None
  | t :: _ =>
    match fire (tid t) st with
    | Some st1 =>
      match awaiting st1 with
      | h :: _ => resume 0 (unmet h) st1
      | [] => Some st1
      end
    | None => None
    end
  end.

(** Rounds are run until no timer is left; [None] when the fuel runs out
    first. *)
Fixpoint run_unmet (fuel : nat) (st : State) : option State :=
  match queue st with
  | [] => Some st
  | _ :: _ =>
    match fuel with
    | O => None
    | S fuel' =>
      match unmet_round st with
      | Some st' => run_unmet fuel' st'
      | None => None
      end
    end
  end.

(** The counts a poll started with [n] is set again with: [n-1], ..., [0]. *)
Definition countdown (n : Z) : list Z :=
  List.map (fun k => (n - Z.of_nat k)%Z) (seq 1 (Z.to_nat n)).

(** At most one outstanding timer per condition, and none while the
    condition's variable is [null]. *)
Definition guarded (st : State) : Prop :=
  ((length (slack_timers st) <= 1)%nat
   /\ (slackFetchTimeout st = None -> slack_timers st = []))
  /\ ((length (spotify_timers st) <= 1)%nat
      /\ (spotifyFetchTimeout st = None -> spotify_timers st = [])).

End Polling.

(** ** [populateSpotifyPlaylists], [populateSpotifyDevices] and
       [populatePlayerContext] *)

Module Playlists.
Import Js.

Record PlaylistItem : Type := mkPlaylist {
  pl_id : string;
  pl_name : string
}.

Record PlayerDevice : Type := mkDevice {
  dev_id : string;
  dev_name : string
}.

(** What [runSpotifyCommand] hands back: the array asked for, an object that
    only carries a [status], or nothing. *)
Inductive fetched (A : Type) : Type :=
| Items (l : list A)
| StatusOnly (status : Z)
| Nothing.
Arguments Items {A} l.
Arguments StatusOnly {A} status.
Arguments Nothing {A}.

(** [x && x.status && x.status >= 400] *)
Definition is_error_status {A : Type} (x : fetched A) : bool :=
  match x with
  | StatusOnly s => truthy (VNum s) && (400 <=? s)%Z
  | _ => false
  end.

(** [x && x.status && x.status === 429] *)
Definition is_rate_limited {A : Type} (x : fetched A) : bool :=
  match x with
  | StatusOnly s => truthy (VNum s) && (s =? 429)%Z
  | _ => false
  end.

(** The fields of [MusicDataManager] the three functions read or write,
    and [rest] for all its other fields. *)
Record DataMgr (Rest : Type) : Type := mkDataMgr {
  origRawPlaylistOrder : list PlaylistItem;
  rawPlaylists : list PlaylistItem;
  currentPlaylists : list PlaylistItem;       (* the displayed list *)
  currentDevices : fetched PlayerDevice;
  spotifyContext : option Z;                  (* the player context, by id *)
  rest : Rest
}.
Arguments mkDataMgr {Rest}.
Arguments origRawPlaylistOrder {Rest}.
Arguments rawPlaylists {Rest}.
Arguments currentPlaylists {Rest}.
Arguments currentDevices {Rest}.
Arguments spotifyContext {Rest}.
Arguments rest {Rest}.

(** What a timer set by these functions does. *)
Inductive callback : Type :=
| RetryPopulateSpotifyPlaylists     (* () => populateSpotifyPlaylists() *)
| GatherMusicInfoRequest.           (* () => gatherMusicInfoRequest() *)

Record World (Rest : Type) : Type := mkWorld {
  dataMgr : DataMgr Rest;
  timers : list (Z * callback);     (* setTimeout calls: delay, callback *)
  controls : list bool              (* syncControls calls: the loading flag *)
}.
Arguments mkWorld {Rest}.
Arguments dataMgr {Rest}.
Arguments timers {Rest}.
Arguments controls {Rest}.

Definition callback_eqb (a b : callback) : bool :=
  match a, b with
  | RetryPopulateSpotifyPlaylists, RetryPopulateSpotifyPlaylists => true
  | GatherMusicInfoRequest, GatherMusicInfoRequest => true
  | _, _ => false
  end.

(** The number of outstanding retries of the playlist fetch set with the
    3-second delay. *)
Definition retries {Rest : Type} (w : World Rest) : nat :=
  length (List.filter
            (fun p => (fst p =? 3000)%Z
                      && callback_eqb (snd p) RetryPopulateSpotifyPlaylists)
            (timers w)).

Section WithDataManager.

Variable Rest : Type.

(** The methods of [MusicDataManager] this file calls and does not define. *)
Variable reconcilePlaylists : DataMgr Rest -> DataMgr Rest.
Variable fetchSavedPlaylists : DataMgr Rest -> DataMgr Rest.
Variable populateGeneratedPlaylists : DataMgr Rest -> DataMgr Rest.

Definition on_dataMgr (f : DataMgr Rest -> DataMgr Rest) (w : World Rest)
  : World Rest :=
  mkWorld (f (dataMgr w)) (timers w) (controls w).

Definition setTimeout (c : callback) (d : Z) (w : World Rest) : World Rest :=
  mkWorld (dataMgr w) (timers w ++ [(d, c)]) (controls w).

(** [dataMgr.origRawPlaylistOrder = []; dataMgr.rawPlaylists = [];] *)
Definition clear_raw (m : DataMgr Rest) : DataMgr Rest :=
  mkDataMgr [] [] (currentPlaylists m) (currentDevices m) (spotifyContext m)
            (rest m).

(** [dataMgr.origRawPlaylistOrder = [...l]; dataMgr.rawPlaylists = l;] *)
Definition set_raw (l : list PlaylistItem) (m : DataMgr Rest) : DataMgr Rest :=
  mkDataMgr l l (currentPlaylists m) (currentDevices m) (spotifyContext m)
            (rest m).

Definition set_currentDevices (d : fetched PlayerDevice) (m : DataMgr Rest)
  : DataMgr Rest :=
  mkDataMgr (origRawPlaylistOrder m) (rawPlaylists m) (currentPlaylists m) d
            (spotifyContext m) (rest m).

Definition set_spotifyContext (c : option Z) (m : DataMgr Rest)
  : DataMgr Rest :=
  mkDataMgr (origRawPlaylistOrder m) (rawPlaylists m) (currentPlaylists m)
            (currentDevices m) c (rest m).

(** [devices] is what the device fetch resolved to. *)
Definition populateSpotifyDevices (devices : fetched PlayerDevice)
  (w : World Rest) : World Rest :=
  if is_rate_limited devices then w
  else setTimeout GatherMusicInfoRequest 1000
         (on_dataMgr (set_currentDevices devices) w).

(** [ctx] is what [getSpotifyPlayerContext] resolved to. *)
Definition populatePlayerContext (ctx : option Z) (w : World Rest)
  : World Rest :=
  let w := on_dataMgr (set_spotifyContext ctx) w in
  mkWorld (dataMgr w) (timers w) (controls w ++ [false]).

(** [devices], [fetchedPlaylists] and [ctx] are what the three remote calls
    of the function resolve to, in the order it makes them. *)
Definition populateSpotifyPlaylists (devices : fetched PlayerDevice)
  (fetchedPlaylists : fetched PlaylistItem) (ctx : option Z) (w : World Rest)
  : completion unit * World Rest :=
  let w := on_dataMgr reconcilePlaylists w in
  let w := on_dataMgr clear_raw w in
  let w := populateSpotifyDevices devices w in
  let w := on_dataMgr fetchSavedPlaylists w in
  let after_fetch : completion unit * World Rest :=
    if is_error_status fetchedPlaylists then
      (Returned tt, setTimeout RetryPopulateSpotifyPlaylists 3000 w)
    else
      match fetchedPlaylists with
      | Items l => (Returned tt, on_dataMgr (set_raw l) w)
      | StatusOnly _ => (Threw "rawPlaylists is not iterable", w)
      | Nothing => (Threw "rawPlaylists is not iterable", w)
      end in
  match after_fetch with
  | (Returned _, w) =>
    let w := on_dataMgr populateGeneratedPlaylists w in
    (Returned tt, populatePlayerContext ctx w)
  | (Threw e, w) => (Threw e, w)
  end.

(** The timer the device fetch sets, unless it was rate limited. *)
Definition device_timer (devices : fetched PlayerDevice)
  : list (Z * callback) :=
  if is_rate_limited devices then [] else [(1000%Z, GatherMusicInfoRequest)].

(** The data manager as it stands when the playlist fetch is answered. *)
Definition at_fetch (devices : fetched PlayerDevice) (m : DataMgr Rest)
  : DataMgr Rest :=
  fetchSavedPlaylists
    (if is_rate_limited devices
     then clear_raw (reconcilePlaylists m)
     else set_currentDevices devices (clear_raw (reconcilePlaylists m))).

End WithDataManager.

(** A method of the data manager that leaves the two raw orderings alone. *)
Definition keeps_raw {Rest : Type} (f : DataMgr Rest -> DataMgr Rest) : Prop :=
  forall m, rawPlaylists (f m) = rawPlaylists m
            /\ origRawPlaylistOrder (f m) = origRawPlaylistOrder m.

(** A method of the data manager that leaves the displayed list alone. *)
Definition keeps_displayed {Rest : Type} (f : DataMgr Rest -> DataMgr Rest)
  : Prop :=
  forall m, currentPlaylists (f m) = currentPlaylists m.

End Playlists.

(** ** [seedLikedSongSessions] and [sendBatchedLikedSongSessions] *)

Module Seed.
Import Js.

Record Track : Type := mkTrack {
  track_id : string;
  playlistId : option string;
  liked : bool
}.

Definition batch_size : nat := 30.

Section WithMetrics.

(** The record [getBootstrapFileMetrics] builds; every song session carries
    the same one. *)
Variable FileMetrics : Type.
Variable fileMetrics : FileMetrics.

(** [{ ...track, ...fileMetrics }] *)
Definition SongSession : Type := Track * FileMetrics.

(** One call of the HTTP client: method, path and the [tracks] of the body. *)
Record Request : Type := mkRequest {
  method : string;
  path : string;
  tracks : list SongSession
}.

(** [softwarePut("/music/session/seed", { tracks: tracksToSave }, jwt)] *)
Definition sendBatchedLikedSongSessions (tracksToSave : list SongSession)
  (sent : list Request) : list Request :=
  sent ++ [mkRequest "PUT" "/music/session/seed" tracksToSave].

(** [track["liked"] = true] and, when the track has no playlist id,
    [track["playlistId"] = "Liked Songs"]. *)
Definition mark (t : Track) : Track :=
  mkTrack (track_id t)
          (if truthy_str (playlistId t) then playlistId t
           else Some "Liked Songs")
          true.

(** The [for] loop from index [i] on, with the batch and the requests
    gathered so far. *)
Fixpoint seed_loop (i : nat) (likedSongs : list Track)
  (batch : list SongSession) (sent : list Request)
  : list SongSession * list Request :=
  match likedSongs with
  | [] => (batch, sent)
  | track :: more =>
    let batch := batch ++ [(mark track, fileMetrics)] in
    if (0 <? i)%nat && (i mod batch_size =? 0)%nat
    then seed_loop (S i) more [] (sendBatchedLikedSongSessions batch sent)
    else seed_loop (S i) more batch sent
  end.

(** [likedSongs] is [None] when the caller has no liked-song list. *)
Definition seedLikedSongSessions (likedSongs : option (list Track))
  (sent : list Request) : list Request :=
  match likedSongs with
  | Some l =>
    if (0 <? length l)%nat then
      let '(batch, sent) := seed_loop 0 l [] sent in
      if (0 <? length batch)%nat
      then sendBatchedLikedSongSessions batch sent
      else sent
    else sent
  | None => sent
  end.

(** The number of track records of each request, in the order sent. *)
Definition batch_sizes (sent : list Request) : list nat :=
  List.map (fun r => length (tracks r)) sent.

End WithMetrics.

(** [n] liked tracks as the liked-song fetch delivers them: no playlist id,
    not yet marked. *)
Definition liked_tracks (n : nat) : list Track :=
  repeat (mkTrack "spotify:track:4RvWPyQ5RL0ao9LPZeSouE" None false) n.

End Seed.

(** ** [playSelectedItem] and the two play helpers *)

Module Playback.
Import Js.

Inductive PlayerType : Type :=
| MacItunesDesktop | MacSpotifyDesktop | WebSpotify | NotAssigned.

Inductive PlayerName : Type :=
| SpotifyDesktop | SpotifyWeb | ItunesDesktop.

Record PlaylistItem : Type := mkItem {
  item_type : string;              (* "track", "playlist", ... *)
  item_id : string;
  item_name : string;
  playerType : PlayerType;
  position : option Z;
  playlist_id : string             (* of a track: the playlist it belongs to *)
}.

(** The answer of [musicMgr.launchConfirm(devices)]. *)
Record LaunchConfirmInfo : Type := mkConfirm {
  proceed : bool;
  isLaunching : bool;
  playerName : PlayerName
}.

(** A play command handed to a backend. *)
Inductive command : Type :=
| PlayItunesTrackNumberInPlaylist (playlistName : string) (pos : Z)
| PlaySpotifyMacDesktopTrack (trackId : string) (playlistId : option string)
| LaunchAndPlaySpotifyTrack (trackId : string) (playlistId : string).

(** What a timer set by [playSelectedItem] does. *)
Inductive deferred : Type :=
| DeferPlaySpotifyDesktop               (* playSpotifyDesktopPlaylistTrack() *)
| DeferPlaySpotifyWeb (isTrack : bool)  (* launchAndPlaySpotifyWebPlaylistTrack *)
| DeferPlayItunes (pos : Z)             (* playItunesTrackNumberInPlaylist *)
| DeferRefreshPlaylist.                 (* "musictime.refreshPlaylist" *)

Record State : Type := mkState {
  selectedTrackItem : option PlaylistItem;
  selectedPlaylist : option PlaylistItem;
  currentProvider : string;
  commands : list command;          (* play commands issued, in order *)
  timers : list (Z * deferred);     (* setTimeout calls: delay, callback *)
  controls : list bool              (* syncControls calls: the loading flag *)
}.

Definition set_selectedTrackItem (t : option PlaylistItem) (st : State) : State :=
  mkState t (selectedPlaylist st) (currentProvider st) (commands st)
          (timers st) (controls st).

Definition set_selectedPlaylist (p : option PlaylistItem) (st : State) : State :=
  mkState (selectedTrackItem st) p (currentProvider st) (commands st)
          (timers st) (controls st).

Definition set_currentProvider (s : string) (st : State) : State :=
  mkState (selectedTrackItem st) (selectedPlaylist st) s (commands st)
          (timers st) (controls st).

Definition issue (c : command) (st : State) : State :=
  mkState (selectedTrackItem st) (selectedPlaylist st) (currentProvider st)
          (commands st ++ [c]) (timers st) (controls st).

Definition setTimeout (d : deferred) (ms : Z) (st : State) : State :=
  mkState (selectedTrackItem st) (selectedPlaylist st) (currentProvider st)
          (commands st) (timers st ++ [(ms, d)]) (controls st).

Definition syncControls (loading : bool) (st : State) : State :=
  mkState (selectedTrackItem st) (selectedPlaylist st) (currentProvider st)
          (commands st) (timers st) (controls st ++ [loading]).

Definition PlayerType_eqb (a b : PlayerType) : bool :=
  match a, b with
  | MacItunesDesktop, MacItunesDesktop
  | MacSpotifyDesktop, MacSpotifyDesktop
  | WebSpotify, WebSpotify
  | NotAssigned, NotAssigned => true
  | _, _ => false
  end.

Definition PlayerName_eqb (a b : PlayerName) : bool :=
  match a, b with
  | SpotifyDesktop, SpotifyDesktop
  | SpotifyWeb, SpotifyWeb
  | ItunesDesktop, ItunesDesktop => true
  | _, _ => false
  end.

Definition deferred_eqb (a b : deferred) : bool :=
  match a, b with
  | DeferPlaySpotifyDesktop, DeferPlaySpotifyDesktop => true
  | DeferPlaySpotifyWeb x, DeferPlaySpotifyWeb y => Bool.eqb x y
  | DeferPlayItunes x, DeferPlayItunes y => (x =? y)%Z
  | DeferRefreshPlaylist, DeferRefreshPlaylist => true
  | _, _ => false
  end.

Definition launchTimeout : Z := 4000.

(** The list-refreshes set with the launch delay. *)
Definition refreshes (st : State) : nat :=
  length (List.filter
            (fun p => (fst p =? launchTimeout)%Z
                      && deferred_eqb (snd p) DeferRefreshPlaylist)
            (timers st)).

(** A play step: the command goes out now, or a play timer is set. *)
Definition play_step (f : State -> completion unit * State) : Prop :=
  forall st,
    timers (f st).2 = timers st
    \/ exists d, deferred_eqb d DeferRefreshPlaylist = false
                 /\ timers (f st).2 = timers st ++ [(launchTimeout, d)].

Section WithConstants.

(** The two constants of [lib/Constants] the file imports. *)
Variable SPOTIFY_LIKED_SONGS_PLAYLIST_NAME : string.
Variable PLAYLISTS_PROVIDER : string.

(** [playSpotifyDesktopPlaylistTrack]: reads the two selection pointers when
    it runs; a missing pointer raises before any command is issued. *)
Definition playSpotifyDesktopPlaylistTrack (st : State)
  : completion unit * State :=
  match selectedPlaylist st with
  | None => (Threw "Cannot read property 'name' of null", st)
  | Some selectedPlaylist =>
    match selectedTrackItem st with
    | None => (Threw "Cannot read property 'id' of null", st)
    | Some selectedTrack =>
      if String.eqb (item_name selectedPlaylist)
                    SPOTIFY_LIKED_SONGS_PLAYLIST_NAME
      then (Returned tt,
            issue (PlaySpotifyMacDesktopTrack (item_id selectedTrack) None) st)
      else (Returned tt,
            issue (PlaySpotifyMacDesktopTrack (item_id selectedTrack)
                     (Some (item_id selectedPlaylist))) st)
    end
  end.

(** [launchAndPlaySpotifyWebPlaylistTrack(isTrack)] *)
Definition launchAndPlaySpotifyWebPlaylistTrack (isTrack : bool) (st : State)
  : completion unit * State :=
  match selectedPlaylist st with
  | None => (Threw "Cannot read property 'name' of null", st)
  | Some selectedPlaylist =>
    let isLikedSongsPlaylist :=
      String.eqb (item_name selectedPlaylist)
                 SPOTIFY_LIKED_SONGS_PLAYLIST_NAME in
    if isTrack || isLikedSongsPlaylist then
      match selectedTrackItem st with
      | None => (Threw "Cannot read property 'id' of null", st)
      | Some selectedTrack =>
        (Returned tt,
         issue (LaunchAndPlaySpotifyTrack (item_id selectedTrack)
                  (item_id selectedPlaylist)) st)
      end
    else
      (Returned tt,
       issue (LaunchAndPlaySpotifyTrack "" (item_id selectedPlaylist)) st)
  end.

(** A helper called without [await]: what it raises rejects a promise nobody
    waits for, and the caller goes on. *)
Definition detached (helper : State -> completion unit * State) (st : State)
  : completion unit * State :=
  (Returned tt, snd (helper st)).

(** Either run [now] or set the timer [later] with the launch delay. *)
Definition now_or_after_launch (isLaunching : bool) (later : deferred)
  (now : State -> completion unit * State) (st : State)
  : completion unit * State :=
  if isLaunching then (Returned tt, setTimeout later launchTimeout st)
  else now st.

(** [playItunesTrackNumberInPlaylist(musicMgr.selectedPlaylist.name, pos)];
    the argument is evaluated by the caller. *)
Definition playItunesSelectedPlaylist (pos : Z) (st : State)
  : completion unit * State :=
  match selectedPlaylist st with
  | None => (Threw "Cannot read property 'name' of null", st)
  | Some p =>
    (Returned tt, issue (PlayItunesTrackNumberInPlaylist (item_name p) pos) st)
  end.

(** The last statement of [playSelectedItem]. *)
Definition refresh_if_launching (launchConfirmInfo : LaunchConfirmInfo)
  (r : completion unit * State) : completion unit * State :=
  match r with
  | (Returned _, st) =>
    if isLaunching launchConfirmInfo
    then (Returned tt, setTimeout DeferRefreshPlaylist launchTimeout st)
    else (Returned tt, st)
  | (Threw e, st) => (Threw e, st)
  end.

(** [playSelectedItem(playlistItem, isExpand)].  [launchConfirmInfo] is the
    answer of [launchConfirm], [playlistById] the answer of
    [getPlaylistById] and [tracks] the answer of
    [getPlaylistItemTracksForPlaylistId]; each is only consulted where the
    function makes the call.  In the playlist branch the source tests
    [isLaunching] first and the player second; the two tests do not depend on
    each other and are written here player first, as in the track branch. *)
Definition playSelectedItem (playlistItem : PlaylistItem) (isExpand : bool)
  (launchConfirmInfo : LaunchConfirmInfo)
  (playlistById : option PlaylistItem)
  (tracks : option (list PlaylistItem))
  (st : State) : completion unit * State :=
  if negb (proceed launchConfirmInfo) then (Returned tt, st)
  else
    let st := syncControls true st in
    let st := set_currentProvider PLAYLISTS_PROVIDER st in
    if String.eqb (item_type playlistItem) "track" then
      let st := set_selectedTrackItem (Some playlistItem) st in
      let st := match selectedPlaylist st with
                | None => set_selectedPlaylist playlistById st
                | Some _ => st
                end in
      if PlayerType_eqb (playerType playlistItem) MacItunesDesktop then
        let pos := match or_else (match position playlistItem with
                                  | Some z => VNum z
                                  | None => VUndefined
                                  end) (VNum 1) with
                   | VNum z => z
                   | _ => 1%Z
                   end in
        refresh_if_launching launchConfirmInfo
          (playItunesSelectedPlaylist pos st)
      else if PlayerName_eqb (playerName launchConfirmInfo) SpotifyDesktop then
        refresh_if_launching launchConfirmInfo
          (now_or_after_launch (isLaunching launchConfirmInfo)
             DeferPlaySpotifyDesktop
             (detached playSpotifyDesktopPlaylistTrack) st)
      else
        refresh_if_launching launchConfirmInfo
          (now_or_after_launch (isLaunching launchConfirmInfo)
             (DeferPlaySpotifyWeb true)
             (detached (launchAndPlaySpotifyWebPlaylistTrack true)) st)
    else
      let st := set_selectedPlaylist (Some playlistItem) st in
      if negb isExpand then
        let selectedTrack : option PlaylistItem :=
          match tracks with
          | Some (t :: _) => Some t
          | Some [] => None
          | None => None
          end in
        match selectedTrack with
        | None => (Returned tt, st)
        | Some t =>
          let st := set_selectedTrackItem (Some t) st in
          if PlayerType_eqb (playerType playlistItem) MacItunesDesktop then
            refresh_if_launching launchConfirmInfo
              (now_or_after_launch (isLaunching launchConfirmInfo)
                 (DeferPlayItunes 1) (playItunesSelectedPlaylist 1) st)
          else if PlayerName_eqb (playerName launchConfirmInfo) SpotifyDesktop
          then
            refresh_if_launching launchConfirmInfo
              (now_or_after_launch (isLaunching launchConfirmInfo)
                 DeferPlaySpotifyDesktop
                 (detached playSpotifyDesktopPlaylistTrack) st)
          else
            refresh_if_launching launchConfirmInfo
              (now_or_after_launch (isLaunching launchConfirmInfo)
                 (DeferPlaySpotifyWeb false)
                 (detached (launchAndPlaySpotifyWebPlaylistTrack false)) st)
        end
      else refresh_if_launching launchConfirmInfo (Returned tt, st).

(** Whether the call is a play request on a playlist whose fetched track
    list has no first track. *)
Definition empty_playlist_request (playlistItem : PlaylistItem)
  (isExpand : bool) (tracks : option (list PlaylistItem)) : bool :=
  negb (String.eqb (item_type playlistItem) "track")
  && negb isExpand
  && match tracks with Some (_ :: _) => false | _ => true end.

End WithConstants.

End Playback.

(** ** Where the seed loop stands *)

Module SeedLoop.
Import Seed.

Section WithMetrics.

Variable FileMetrics : Type.

(** Where the loop stands at index [i]: up to index 30 nothing has been sent
    and the batch holds every track so far; from index 31 on a request of 31
    records leads, requests of 30 records follow, and the batch holds the
    tracks since the last request. *)
Definition loop_state (i : nat) (batch : list (SongSession FileMetrics))
  (sent : list (Request FileMetrics)) : Prop :=
  (i <= 30 /\ length batch = i /\ sent = [])%nat
  \/ (30 < i /\ length batch = (i - 1) mod 30
      /\ exists more, batch_sizes FileMetrics sent = 31 :: more
                      /\ Forall (fun b => b = 30) more)%nat.

(** All the track records of a list of requests, in the order sent. *)
Definition records (sent : list (Request FileMetrics))
  : list (SongSession FileMetrics) :=
  concat (List.map (tracks FileMetrics) sent).

End WithMetrics.

End SeedLoop.

(** ** [getUser] and [getSlackOauth] *)

Module SlackAuth.
Import Js UserStatus.

(** The response of [GET /users/me]: [resp.data] and, inside it,
    [resp.data.data], the user document. *)
Record MeResponse : Type := mkMeResponse {
  me_status : Z;
  me_data : option (option User)
}.

Section WithHttp.

(** The HTTP client's success test on this response. *)
Variable isResponseOk : MeResponse -> bool.

(** [getUser(jwt)]; [resp] is what the request resolves to. *)
Definition getUser (jwt : jsval) (resp : MeResponse) (w : World)
  : option User * World :=
  if truthy jwt then
    let w := log_request "/users/me" w in
    if isResponseOk resp then
      match me_data resp with
      | Some (Some user) => (Some user, w)
      | _ => (None, w)
      end
    else (None, w)
  else (None, w).

(** The [for] loop of [getSlackOauth]: the first record whose type is
    ["slack"] is handed to [updateSlackAccessInfo] and returned. *)
Fixpoint slack_loop (l : list Auth) (w : World) : option Auth * World :=
  match l with
  | [] => (None, w)
  | a :: more =>
    if str_is (auth_type a) "slack"
    then (Some a, updateSlackAccessInfo a w)
    else slack_loop more w
  end.

(** [getSlackOauth()]; [None] stands for the [undefined] the function ends
    with when it returns nothing. *)
Definition getSlackOauth (resp : MeResponse) (w : World)
  : option Auth * World :=
  let jwt := getItem "jwt" w in
  if truthy jwt then
    let '(user, w) := getUser jwt resp w in
    match user with
    | Some u =>
      match auths u with
      | Some l => slack_loop l w
      | None => (None, w)
      end
    | None => (None, w)
    end
  else (None, w).

End WithHttp.

End SlackAuth.

(** ** What [getMusicTimeUserStatus] writes *)

Module UserStatusWrites.
Import Js UserStatus.

(** The two [setItem] calls of the ["OK"] branch. *)
Definition store_writes (d : Body) (w : World) : World :=
  let w := match body_email d with
           | Some e => if truthy_str (Some e)
                       then setItem "name" (VStr e) w else w
           | None => w
           end in
  match body_jwt d with
  | Some j => if truthy_str (Some j) then setItem "jwt" (VStr j) w else w
  | None => w
  end.

(** The records of a body, when it has a user with records. *)
Definition records (d : Body) : list Auth :=
  match body_user d with
  | Some u => default [] (auths u)
  | None => []
  end.

Definition is_slack_auth (a : Auth) : bool := str_is (auth_type a) "slack".

End UserStatusWrites.

(** ** Runs of the spotify poll, and what ties a guard to its timer *)

Module PollingRuns.
Import Js Polling.

(** One round of the spotify poll: the oldest timer fires and the handler it
    starts is answered with [r], what [getMusicTimeUserStatus] came to. *)
Definition spotify_round (r : completion UserStatus.Status) (st : State)
  : option State :=
  match queue st with
  | [] => None
  | t :: _ =>
    match fire (tid t) st with
    | Some st1 => resume 0 (SpotifyAnswer r) st1
    | None => None
    end
  end.

(** One round per answer. *)
Fixpoint spotify_rounds (rs : list (completion UserStatus.Status))
  (st : State) : option State :=
  match rs with
  | [] => Some st
  | r :: more =>
    match spotify_round r st with
    | Some st' => spotify_rounds more st'
    | None => None
    end
  end.

(** The loads of a connected handler are answered one after the other, each
    with how it ended. *)
Fixpoint spotify_loads (ls : list (completion unit)) (st : State)
  : option State :=
  match ls with
  | [] => Some st
  | loaded :: more =>
    match resume 0 (LoadAnswer loaded) st with
    | Some st' => spotify_loads more st'
    | None => None
    end
  end.

(** The answer "not connected", under any state. *)
Definition not_connected (s : string) : completion UserStatus.Status :=
  Returned (UserStatus.mkStatus false s).

(** An outstanding timer of the slack poll, of the spotify poll, with the
    handle [h]. *)
Definition slack_timer_at (h : nat) (st : State) : Prop :=
  exists t, In t (queue st) /\ tid t = h /\ is_slack (cb t) = true.

Definition spotify_timer_at (h : nat) (st : State) : Prop :=
  exists t, In t (queue st) /\ tid t = h /\ is_spotify (cb t) = true.

(** Handles are fresh and distinct, and each guard variable holds a handle
    exactly when the timer with that handle is outstanding for its poll. *)
Definition linked (st : State) : Prop :=
  NoDup (List.map tid (queue st))
  /\ (forall t, In t (queue st) -> (tid t < next_tid st)%nat)
  /\ (forall h, slackFetchTimeout st = Some h <-> slack_timer_at h st)
  /\ (forall h, spotifyFetchTimeout st = Some h <-> spotify_timer_at h st).

End PollingRuns.

(** ** The session times given to the liked songs once spotify is
       connected *)

Module LikedSongTimes.
Import Js.

(** A liked song with the fields the loop reads and writes. *)
Record Track : Type := mkTrack {
  uri : option string;
  id : string;
  spotifyTrackId : option string;
  playlistId : option string;
  loved : bool;
  start : Z;
  end_ : Z;                        (* track["end"] *)
  duration : Z;
  local_start : Z;
  local_end : Z
}.

(** The body of the [forEach] for one track: [startingTime] is the value of
    the counter on entry, [offset_sec] is [nowTime.offset_sec]; the result is
    the track as rewritten and the counter on exit. *)
Definition stamp (offset_sec : Z) (startingTime : Z) (track : Track)
  : Track * Z :=
  let start' := startingTime in
  let startingTime := (startingTime - 60)%Z in
  let end' := startingTime in
  let rename := truthy_str (uri track) in
  (mkTrack (uri track)
           (if rename then default "" (uri track) else id track)
           (if rename then uri track else spotifyTrackId track)
           (Some "Liked Songs") true
           start' end' 60
           (start' - offset_sec)%Z (end' - offset_sec)%Z,
   (startingTime - 1)%Z).

(** [dataMgr.spotifyLikedSongs.forEach(...)] with the counter started at
    [startingTime]. *)
Fixpoint stamp_all (offset_sec : Z) (startingTime : Z) (l : list Track)
  : list Track :=
  match l with
  | [] => []
  | track :: more =>
    let '(track', startingTime') := stamp offset_sec startingTime track in
    track' :: stamp_all offset_sec startingTime' more
  end.

End LikedSongTimes.

(** ** [isNewHour], [getToggleFileEventLoggingState] and [sendMusicData] *)

Module Telemetry.
Import Js.

(** [isNewHour()]: [currentDayHour] is the module variable, [dayHr] what
    [moment().format("YYYY-MM-DD-HH")] gives at the call. *)
Definition isNewHour (dayHr : string) (currentDayHour : option string)
  : bool * option string :=
  if negb (truthy_str currentDayHour)
     || negb (match currentDayHour with
              | Some c => String.eqb dayHr c
              | None => false
              end)
  then (true, Some dayHr)
  else (false, currentDayHour).

(** A sequence of calls, one per hour stamp. *)
Fixpoint isNewHour_calls (stamps : list string)
  (currentDayHour : option string) : list bool :=
  match stamps with
  | [] => []
  | dayHr :: more =>
    let '(b, c) := isNewHour dayHr currentDayHour in
    b :: isNewHour_calls more c
  end.

(** [getToggleFileEventLoggingState()]: [toggleFileEventLogging] is the
    module variable, [configured] what the workspace configuration holds at
    the call. *)
Definition getToggleFileEventLoggingState (configured : jsval)
  (toggleFileEventLogging : jsval) : jsval * jsval :=
  let toggleFileEventLogging :=
    if is_null toggleFileEventLogging then configured
    else toggleFileEventLogging in
  (toggleFileEventLogging, toggleFileEventLogging).

(** A sequence of calls, one per configured value. *)
Fixpoint toggle_calls (configured : list jsval) (toggle : jsval)
  : list jsval :=
  match configured with
  | [] => []
  | c :: more =>
    let '(r, toggle') := getToggleFileEventLoggingState c toggle in
    r :: toggle_calls more toggle'
  end.

(** The first value of a list that is not [null]. *)
Fixpoint first_non_null (l : list jsval) : jsval :=
  match l with
  | [] => VNull
  | v :: more => if is_null v then first_non_null more else v
  end.

(** A field of a track object: a plain value, or an array or object, which
    is truthy whatever it holds. *)
Inductive field : Type :=
| Plain (v : jsval)
| Nested.

Definition truthy_field (f : option field) : bool :=
  match f with
  | Some (Plain v) => truthy v
  | Some Nested => true
  | None => false
  end.

(** [if (trackData.k) { delete trackData.k; }] on an object held as a map *)
Definition drop_if_truthy (k : string) (o : gmap string field)
  : gmap string field :=
  if truthy_field (o !! k) then delete k o else o.

(** One request of the HTTP client: method, path and body. *)
Record Request : Type := mkRequest {
  method : string;
  path : string;
  body : gmap string field
}.

(** [sendSessionPayload(songSession)] *)
Definition sendSessionPayload (songSession : gmap string field)
  (sent : list Request) : list Request :=
  sent ++ [mkRequest "POST" "/music/session" songSession].

(** [sendMusicData(trackData)]: the object as the function leaves it and the
    requests made. *)
Definition sendMusicData (trackData : gmap string field)
  (sent : list Request) : gmap string field * list Request :=
  let trackData := drop_if_truthy "available_markets" trackData in
  let trackData := drop_if_truthy "images" trackData in
  let trackData := drop_if_truthy "external_urls" trackData in
  let trackData := drop_if_truthy "href" trackData in
  (trackData, sendSessionPayload trackData sent).

Definition dropped_keys : list string :=
  ["available_markets"; "images"; "external_urls"; "href"].

End Telemetry.

(** ** The playlist tree: first refresh and children *)

Module TreeView.
Import Js.

Record State : Type := mkState {
  initializedPlaylist : bool;            (* module variable *)
  ready : bool;                          (* musicMgr.ready *)
  currentPlaylists : list Playback.PlaylistItem;
  executed : list string                 (* commands.executeCommand *)
}.

(** [view.onDidChangeVisibility(e => ...)] with [e.visible] *)
Definition onDidChangeVisibility (visible : bool) (st : State) : State :=
  if visible then
    if negb (initializedPlaylist st) then
      mkState true (ready st) (currentPlaylists st)
              (executed st ++ ["musictime.refreshPlaylist"])
    else st
  else st.

Section WithMusicManager.

(** [musicMgr.refreshPlaylists()], as what it leaves in
    [musicMgr.currentPlaylists], and [musicMgr.getLoadingButton()]. *)
Variable refreshPlaylists :
  list Playback.PlaylistItem -> list Playback.PlaylistItem.
Variable getLoadingButton : Playback.PlaylistItem.

(** [getChildren(element)]; [tracks] is the answer of
    [getPlaylistItemTracksForPlaylistId], consulted for an element only. *)
Definition getChildren (element : option Playback.PlaylistItem)
  (tracks : list Playback.PlaylistItem) (st : State)
  : list Playback.PlaylistItem * State :=
  if ready st then
    match element with
    | Some _ => (tracks, st)
    | None =>
      let st :=
        if (length (currentPlaylists st) =? 0)%nat
        then mkState (initializedPlaylist st) (ready st)
                     (refreshPlaylists (currentPlaylists st)) (executed st)
        else mkState true (ready st) (currentPlaylists st) (executed st) in
      (currentPlaylists st, st)
    end
  else ([getLoadingButton], st).

(** What the tree view does to the provider. *)
Inductive event : Type :=
| Visibility (visible : bool)
| Children (element : option Playback.PlaylistItem)
           (tracks : list Playback.PlaylistItem).

Definition step (e : event) (st : State) : State :=
  match e with
  | Visibility v => onDidChangeVisibility v st
  | Children el tr => (getChildren el tr st).2
  end.

Definition run (es : list event) (st : State) : State :=
  fold_left (fun st e => step e st) es st.

End WithMusicManager.

(** How often the playlist refresh was executed. *)
Definition refreshes (st : State) : nat :=
  length (List.filter (String.eqb "musictime.refreshPlaylist") (executed st)).

(** At most one refresh so far, and none as long as the flag is unset. *)
Definition refreshed_once (st : State) : Prop :=
  (refreshes st <= 1)%nat
  /\ (initializedPlaylist st = false -> refreshes st = 0%nat).

End TreeView.

(** * Properties *)

(** ** The [/ping] memoisation *)

Section ServerPingFacts.
Import Js ServerPing.

Variable Response : Type.
Variable isResponseOk : Response -> bool.

Local Abbreviation serverIsAvailable :=
  (ServerPing.serverIsAvailable Response isResponseOk).
Local Abbreviation serverIsAvailable_twice :=
  (ServerPing.serverIsAvailable_twice Response isResponseOk).

Lemma world_eta (w : World) : mkWorld (cache w) (requests w) = w.
Proof. by destruct w. Qed.

(** A truthy cached value is handed back and the world is left as it was:
    the value written back is the one already stored. *)
Lemma serverIsAvailable_hit net w v :
  cache w !! "serverAvailable" = Some v ->
  truthy v = true ->
  serverIsAvailable net w = (v, w).
Proof.
  intros Hget Htruthy.
  unfold ServerPing.serverIsAvailable, cache_get, or_else, cache_set.
  rewrite Hget. simpl. rewrite Htruthy.
  assert (Hnn : is_null v = false) by (destruct v; simpl in *; congruence).
  rewrite Hnn. simpl.
  rewrite insert_id by exact Hget.
  by rewrite Hnn, world_eta.
Qed.

(** Whatever the cache held, the value returned is not [null], it is stored
    under the key afterwards, and at most one [/ping] was added. *)
Lemma serverIsAvailable_stores net w r w' :
  serverIsAvailable net w = (r, w') ->
  cache w' !! "serverAvailable" = Some r
  /\ (requests w' = requests w \/ requests w' = requests w ++ ["/ping"]).
Proof.
  unfold ServerPing.serverIsAvailable, cache_get, or_else, cache_set.
  destruct (truthy (default VUndefined (cache w !! "serverAvailable"))) eqn:Ht.
  - assert (Hnn : is_null (default VUndefined (cache w !! "serverAvailable"))
                  = false).
    { destruct (default VUndefined (cache w !! "serverAvailable"));
        simpl in *; congruence. }
    rewrite Hnn. simpl. rewrite Hnn. simpl. intros [= <- <-]. simpl.
    split; [apply lookup_insert_eq | by left].
  - simpl. unfold ping.
    destruct net; simpl; intros [= <- <-]; simpl;
      (split; [apply lookup_insert_eq | by right]).
Qed.

(** Once the entry has expired the call pings again. *)
Lemma serverIsAvailable_expired net w :
  let w0 := mkWorld (cache_expire "serverAvailable" (cache w)) (requests w) in
  requests (serverIsAvailable net w0).2 = requests w ++ ["/ping"].
Proof.
  unfold ServerPing.serverIsAvailable, cache_get, cache_expire, or_else.
  simpl. rewrite lookup_delete_eq. simpl. by destruct net.
Qed.

(** What the memoisation does keep.  A cached value that is truthy (the
    boolean [true]) is returned as it is, with no [/ping] and the world
    unchanged.  Hence, of two calls in a row with no expiry in between, when
    the first returns a truthy value the second returns the same value and
    the pair makes at most one [/ping]. *)
Theorem serverIsAvailable_memoises_truthy :
  (forall net w v,
      cache w !! "serverAvailable" = Some v ->
      truthy v = true ->
      serverIsAvailable net w = (v, w))
  /\ (forall net1 net2 w r1 r2 w2,
      serverIsAvailable_twice net1 net2 w = (r1, r2, w2) ->
      truthy r1 = true ->
      r2 = r1 /\ (length (requests w2) <= S (length (requests w)))%nat).
Proof.
  split; [exact serverIsAvailable_hit |].
  intros net1 net2 w r1 r2 w2 Htwice Htruthy.
  unfold ServerPing.serverIsAvailable_twice in Htwice.
  destruct (serverIsAvailable net1 w) as [a w1] eqn:H1.
  destruct (serverIsAvailable_stores _ _ _ _ H1) as [Hstored Hreq].
  destruct (serverIsAvailable net2 w1) as [b w2'] eqn:H2.
  injection Htwice as -> -> ->.
  rewrite (serverIsAvailable_hit net2 w1 r1 Hstored Htruthy) in H2.
  injection H2 as <- <-.
  split; [reflexivity |].
  destruct Hreq as [-> | ->]; [lia |].
  rewrite length_app. simpl. lia.
Qed.

(** C9 fails on the code.  Every call stores what it returns under the key,
    [false] included (the store is guarded by [!== null] only), but a stored
    value that is falsy is turned into [null] by [|| null] on the next read:
    with a falsy value cached the call makes the [/ping] again and returns
    what the ping gives, not the cached value.  So a call that returned
    [false] is always followed by a call that pings. *)
Theorem serverIsAvailable_cached_falsy_pings_again net w v :
  cache w !! "serverAvailable" = Some v ->
  truthy v = false ->
  let r := serverIsAvailable net w in
  requests r.2 = requests w ++ ["/ping"]
  /\ r.1 = VBool match net with
                 | Resolved x => isResponseOk x
                 | Rejected => false
                 end
  /\ cache r.2 !! "serverAvailable" = Some r.1
  /\ (r.1 = VBool false ->
      forall net2,
        requests (serverIsAvailable net2 r.2).2
        = requests w ++ ["/ping"; "/ping"]).
Proof.
  intros Hget Hfalsy.
  assert (Hmiss : forall net0 w0 v0,
             cache w0 !! "serverAvailable" = Some v0 ->
             truthy v0 = false ->
             serverIsAvailable net0 w0
             = (VBool match net0 with
                      | Resolved x => isResponseOk x
                      | Rejected => false
                      end,
                mkWorld (<["serverAvailable" :=
                            VBool match net0 with
                                  | Resolved x => isResponseOk x
                                  | Rejected => false
                                  end]> (cache w0))
                        (requests w0 ++ ["/ping"]))).
  { intros net0 w0 v0 Hg Hf.
    unfold ServerPing.serverIsAvailable, cache_get, or_else, cache_set, ping.
    rewrite Hg. cbn [default from_option id]. rewrite Hf. cbn [is_null].
    by destruct net0. }
  cbv zeta. rewrite (Hmiss net w v Hget Hfalsy). cbn [fst snd requests cache].
  split; [reflexivity |]. split; [reflexivity |].
  split; [apply lookup_insert_eq |].
  intros Hfalse net2.
  rewrite (Hmiss net2 _ (VBool false)); cbn [cache requests snd].
  - by rewrite <- app_assoc.
  - rewrite Hfalse. apply lookup_insert_eq.
  - reflexivity.
Qed.

End ServerPingFacts.

(** The first call failed and stored [false]; the server is back, and the
    next call pings again and returns [true]. *)
Lemma serverIsAvailable_cached_falsy_pings_again_witness :
  let w := ServerPing.mkWorld {[ "serverAvailable" := Js.VBool false ]}
             ["/ping"] in
  let r := ServerPing.serverIsAvailable bool id (Js.Resolved true) w in
  ServerPing.requests r.2 = ["/ping"; "/ping"]
  /\ r.1 = Js.VBool true.
Proof.
  intros w r.
  destruct (serverIsAvailable_cached_falsy_pings_again bool id
              (Js.Resolved true) w (Js.VBool false))
    as (Hreq & Hres & _); [reflexivity | reflexivity |].
  split; [exact Hreq | exact Hres].
Defined.

(** The memoisation at work on a cold cache: the first call pings and gets
    [true], the second is served from the cache. *)
Lemma serverIsAvailable_memoises_truthy_witness :
  ServerPing.serverIsAvailable bool id Js.Rejected
    (ServerPing.mkWorld {[ "serverAvailable" := Js.VBool true ]} [])
  = (Js.VBool true,
     ServerPing.mkWorld {[ "serverAvailable" := Js.VBool true ]} [])
  /\ (length (ServerPing.requests
               (ServerPing.serverIsAvailable_twice bool id
                  (Js.Resolved true) Js.Rejected
                  (ServerPing.mkWorld ∅ [])).2) <= 1)%nat.
Proof.
  split.
  - apply (proj1 (serverIsAvailable_memoises_truthy bool id));
      [reflexivity | reflexivity].
  - apply (proj2 (serverIsAvailable_memoises_truthy bool id)
             (Js.Resolved true) Js.Rejected (ServerPing.mkWorld ∅ [])
             (Js.VBool true) (Js.VBool true));
      [reflexivity | reflexivity].
Defined.

(** A cached [false] at work.  The cache holds [false] under the key, yet
    the call pings and returns [true]; and of two calls in a row, the first
    failing and the second succeeding, both ping and the results differ. *)
Lemma serverIsAvailable_cached_false_pings_again :
  let stale := ServerPing.mkWorld {[ "serverAvailable" := Js.VBool false ]} [] in
  let once := ServerPing.serverIsAvailable bool id (Js.Resolved true) stale in
  let twice := ServerPing.serverIsAvailable_twice bool id
                 Js.Rejected (Js.Resolved true) (ServerPing.mkWorld ∅ []) in
  ServerPing.cache stale !! "serverAvailable" = Some (Js.VBool false)
  /\ once.1 = Js.VBool true
  /\ ServerPing.requests once.2 = ["/ping"]
  /\ twice.1 = (Js.VBool false, Js.VBool true)
  /\ ServerPing.requests twice.2 = ["/ping"; "/ping"].
Proof. vm_compute. repeat split; reflexivity. Qed.

(** ** The user/auth status classification *)

Section UserStatusFacts.
Import Js UserStatus.

Variable isResponseOk : Response -> bool.

Local Abbreviation getMusicTimeUserStatus :=
  (UserStatus.getMusicTimeUserStatus isResponseOk).

(** The flag the loop over the records ends with: the flag it started with,
    or a spotify authorization among the records. *)
Lemma auth_loop_found (l : list Auth) (b : bool) (w : World) :
  (fold_left auth_step l (b, w)).1 = b || existsb is_spotify_auth l.
Proof.
  revert b w. induction l as [| a l IH]; intros b w; simpl.
  - by rewrite orb_false_r.
  - destruct (is_spotify_auth a) eqn:Ha.
    + rewrite IH. simpl. by rewrite orb_true_r.
    + destruct (str_is (auth_type a) "slack"); rewrite IH; reflexivity.
Qed.

(** What the call returns, as a function of the classified state, once the
    request is made and has succeeded with a body. *)
Lemma getMusicTimeUserStatus_result resp d w :
  token_available w = true ->
  isResponseOk resp = true ->
  data resp = Some d ->
  (getMusicTimeUserStatus resp w).1 =
    if String.eqb (classify d) "OK" then
      match body_user d with
      | None => Threw "Cannot read property 'auths' of undefined"
      | Some _ => Returned (mkStatus (has_spotify_auth d) (classify d))
      end
    else Returned (mkStatus false (classify d)).
Proof.
  intros Htok Hok Hdata.
  unfold UserStatus.getMusicTimeUserStatus, token_available in *.
  rewrite Htok, Hok, Hdata. fold (classify d).
  destruct (String.eqb (classify d) "OK"); [| reflexivity].
  unfold has_spotify_auth.
  destruct (body_user d) as [u |]; [| reflexivity].
  destruct (auths u) as [l |]; [| reflexivity].
  destruct l as [| a l]; [reflexivity |].
  change (0 <? length (a :: l))%nat with true. cbv iota.
  unfold auth_loop.
  match goal with
  | |- context [fold_left auth_step ?xs (false, ?w0)] =>
      pose proof (auth_loop_found xs false w0) as Hfound;
      destruct (fold_left auth_step xs (false, w0)) as [found w']
  end.
  cbn [fst orb] in Hfound. subst found. reflexivity.
Qed.

Lemma classify_ok (d : Body) :
  String.eqb (classify d) "OK" = true <-> body_state d = Some "OK".
Proof.
  unfold classify. destruct (body_state d) as [s |]; simpl.
  - destruct (String.eqb s "") eqn:Hs; simpl.
    + apply String.eqb_eq in Hs. subst s. split; discriminate.
    + rewrite String.eqb_eq. split; congruence.
  - split; discriminate.
Qed.

(** When the request is not made, fails, or has no body, the call returns
    the sentinel. *)
Lemma getMusicTimeUserStatus_sentinel resp w :
  token_available w = false \/ isResponseOk resp = false \/ data resp = None ->
  (getMusicTimeUserStatus resp w).1 = Returned (mkStatus false "UNKNOWN").
Proof.
  unfold UserStatus.getMusicTimeUserStatus, token_available.
  intros [Htok | [Hok | Hdata]].
  - by rewrite Htok.
  - rewrite Hok. by destruct (_ || _).
  - rewrite Hdata. by destruct (_ || _), (isResponseOk resp).
Qed.

(** C3.  With a token at hand and a successful response: the body
    [{state:"OK", user:{auths:[{type:"spotify", access_token:"x"}]}}] gives
    [{loggedOn:true, state:"OK"}], a body whose state is ["ANONYMOUS"] gives
    [{loggedOn:false, state:"ANONYMOUS"}], and a body without a state gives
    [{loggedOn:false, state:"UNKNOWN"}]. *)
Theorem getMusicTimeUserStatus_classifies resp d w :
  token_available w = true ->
  isResponseOk resp = true ->
  data resp = Some d ->
  (body_state d = Some "OK" ->
   body_user d = Some (mkUser (Some [mkAuth (Some "spotify") (Some "x")])) ->
   (getMusicTimeUserStatus resp w).1 = Returned (mkStatus true "OK"))
  /\ (body_state d = Some "ANONYMOUS" ->
      (getMusicTimeUserStatus resp w).1
      = Returned (mkStatus false "ANONYMOUS"))
  /\ (body_state d = None ->
      (getMusicTimeUserStatus resp w).1 = Returned (mkStatus false "UNKNOWN")).
Proof.
  intros Htok Hok Hdata.
  rewrite (getMusicTimeUserStatus_result resp d w Htok Hok Hdata).
  unfold classify, has_spotify_auth.
  repeat split.
  - intros -> ->. reflexivity.
  - intros ->. reflexivity.
  - intros ->. reflexivity.
Qed.

(** C4, as amended.  On a successful response on which the call returns,
    [loggedOn] is true exactly when the state is ["OK"] and one of the
    records is a spotify authorization with a non-empty access token; under
    any other state it is false whatever the records are. *)
Theorem loggedOn_iff_ok_and_spotify_auth resp d w r :
  token_available w = true ->
  isResponseOk resp = true ->
  data resp = Some d ->
  (getMusicTimeUserStatus resp w).1 = Returned r ->
  state r = classify d
  /\ loggedOn r = String.eqb (state r) "OK" && has_spotify_auth d.
Proof.
  intros Htok Hok Hdata.
  rewrite (getMusicTimeUserStatus_result resp d w Htok Hok Hdata).
  destruct (String.eqb (classify d) "OK") eqn:Hc.
  - destruct (body_user d); [| discriminate].
    intros [= <-]. simpl. by rewrite Hc.
  - intros [= <-]. simpl. by rewrite Hc.
Qed.

(** C10.  The call raises exactly when the request is made, succeeds, and
    its body has state ["OK"] and no user; in every other case it returns a
    [{loggedOn, state}] record. *)
Theorem getMusicTimeUserStatus_raises_iff resp w :
  returned (getMusicTimeUserStatus resp w).1 = false
  <-> token_available w = true
      /\ isResponseOk resp = true
      /\ exists d, data resp = Some d
                   /\ body_state d = Some "OK"
                   /\ body_user d = None.
Proof.
  destruct (token_available w) eqn:Htok.
  2: { rewrite getMusicTimeUserStatus_sentinel by auto.
       simpl. split; [discriminate | intros [? _]; discriminate]. }
  destruct (isResponseOk resp) eqn:Hok.
  2: { rewrite getMusicTimeUserStatus_sentinel by auto.
       simpl. split; [discriminate | intros (_ & ? & _); discriminate]. }
  destruct (data resp) as [d |] eqn:Hdata.
  2: { rewrite getMusicTimeUserStatus_sentinel by auto.
       simpl. split; [discriminate | intros (_ & _ & ? & ? & _); discriminate]. }
  rewrite (getMusicTimeUserStatus_result resp d w Htok Hok Hdata).
  destruct (String.eqb (classify d) "OK") eqn:Hc.
  - apply classify_ok in Hc.
    destruct (body_user d) eqn:Hu; simpl.
    + split; [discriminate |].
      intros (_ & _ & d' & [= <-] & _ & Hu'). congruence.
    + split; [| reflexivity]. intros _. repeat split. by exists d.
  - simpl. split; [discriminate |].
    intros (_ & _ & d' & [= <-] & Hs & _).
    apply classify_ok in Hs. congruence.
Qed.

End UserStatusFacts.

(** A response counts as successful below when its status is under 300. *)
Lemma getMusicTimeUserStatus_classifies_witness :
  let ok := fun r => (UserStatus.status r <? 300)%Z in
  let w := UserStatus.mkWorld {[ "jwt" := Js.VStr "jwt-1" ]} [] [] [] in
  let spotify := UserStatus.mkAuth (Some "spotify") (Some "x") in
  let d := UserStatus.mkBody (Some "OK") None None
             (Some (UserStatus.mkUser (Some [spotify]))) in
  (UserStatus.getMusicTimeUserStatus ok (UserStatus.mkResponse 200 (Some d)) w).1
  = Js.Returned (UserStatus.mkStatus true "OK").
Proof.
  intros ok w spotify d.
  apply (getMusicTimeUserStatus_classifies ok
           (UserStatus.mkResponse 200 (Some d)) d w);
    reflexivity.
Defined.

Lemma loggedOn_iff_ok_and_spotify_auth_witness :
  let ok := fun r => (UserStatus.status r <? 300)%Z in
  let w := UserStatus.mkWorld {[ "jwt" := Js.VStr "jwt-1" ]} [] [] [] in
  let slack := UserStatus.mkAuth (Some "slack") (Some "y") in
  let spotify := UserStatus.mkAuth (Some "spotify") (Some "x") in
  let d := UserStatus.mkBody (Some "OK") (Some "a@b.c") None
             (Some (UserStatus.mkUser (Some [slack; spotify]))) in
  let r := UserStatus.mkStatus true "OK" in
  UserStatus.state r = UserStatus.classify d
  /\ UserStatus.loggedOn r
     = String.eqb (UserStatus.state r) "OK" && UserStatus.has_spotify_auth d.
Proof.
  intros ok w slack spotify d r.
  apply (loggedOn_iff_ok_and_spotify_auth ok
           (UserStatus.mkResponse 200 (Some d)) d w r);
    reflexivity.
Defined.

(** C4 as stated fails outside the ["OK"] state: the records of the
    ["ANONYMOUS"] body include a spotify authorization with its token, yet
    the call returns [loggedOn = false].  Under ["OK"], a spotify record
    without a token does not count either. *)
Lemma loggedOn_false_despite_spotify_record :
  let ok := fun r => (UserStatus.status r <? 300)%Z in
  let w := UserStatus.mkWorld {[ "jwt" := Js.VStr "jwt-1" ]} [] [] [] in
  let spotify := UserStatus.mkAuth (Some "spotify") (Some "x") in
  let anonymous := UserStatus.mkBody (Some "ANONYMOUS") None None
                     (Some (UserStatus.mkUser (Some [spotify]))) in
  let tokenless := UserStatus.mkBody (Some "OK") None None
                     (Some (UserStatus.mkUser
                              (Some [UserStatus.mkAuth (Some "spotify") None]))) in
  UserStatus.has_spotify_record anonymous = true
  /\ UserStatus.has_spotify_auth anonymous = true
  /\ (UserStatus.getMusicTimeUserStatus ok
        (UserStatus.mkResponse 200 (Some anonymous)) w).1
     = Js.Returned (UserStatus.mkStatus false "ANONYMOUS")
  /\ UserStatus.has_spotify_record tokenless = true
  /\ (UserStatus.getMusicTimeUserStatus ok
        (UserStatus.mkResponse 200 (Some tokenless)) w).1
     = Js.Returned (UserStatus.mkStatus false "OK").
Proof. vm_compute. repeat split; reflexivity. Qed.

(** The body [{state:"OK"}] of C10: the call raises. *)
Example getMusicTimeUserStatus_ok_without_user :
  let ok := fun r => (UserStatus.status r <? 300)%Z in
  let w := UserStatus.mkWorld {[ "jwt" := Js.VStr "jwt-1" ]} [] [] [] in
  let d := UserStatus.mkBody (Some "OK") None None None in
  (UserStatus.getMusicTimeUserStatus ok (UserStatus.mkResponse 200 (Some d)) w).1
  = Js.Threw "Cannot read property 'auths' of undefined".
Proof. vm_compute. reflexivity. Qed.

(** ** The connection polls *)

Section PollingFacts.
Import Js Polling.

Lemma filter_length_le {A : Type} (f : A -> bool) (l : list A) :
  (length (List.filter f l) <= length l)%nat.
Proof.
  induction l as [| a l IH]; simpl; [lia |].
  destruct (f a); simpl; lia.
Qed.

(** The timers of one kind that survive the removal of a handle. *)
Lemma filter_filter_length {A : Type} (f g : A -> bool) (l : list A) :
  (length (List.filter f (List.filter g l)) <= length (List.filter f l))%nat.
Proof.
  induction l as [| a l IH]; simpl; [lia |].
  destruct (g a); simpl; destruct (f a); simpl; lia.
Qed.

Lemma filter_filter_nil {A : Type} (f g : A -> bool) (l : list A) :
  List.filter f l = [] -> List.filter f (List.filter g l) = [].
Proof.
  intros H. pose proof (filter_filter_length f g l) as Hle.
  rewrite H in Hle. simpl in Hle.
  destruct (List.filter f (List.filter g l)); [reflexivity | simpl in Hle; lia].
Qed.

(** When a timer of some kind fires and at most one of that kind was
    outstanding, none of that kind is left. *)
Lemma filter_fired_nil (f : timer -> bool) (q : list timer) (t : timer)
  (h : nat) :
  List.find (fun t => Nat.eqb (tid t) h) q = Some t ->
  f t = true ->
  (length (List.filter f q) <= 1)%nat ->
  List.filter f (List.filter (fun t => negb (Nat.eqb (tid t) h)) q) = [].
Proof.
  induction q as [| a q IH]; simpl; [discriminate |].
  destruct (Nat.eqb (tid a) h) eqn:Ha; simpl.
  - intros [= ->] Hf. rewrite Hf. simpl. intros Hlen.
    apply filter_filter_nil.
    destruct (List.filter f q); [reflexivity | simpl in Hlen; lia].
  - intros Hfind Hf. destruct (f a) eqn:Hfa; simpl.
    + intros Hlen. exfalso.
      assert (Hin : In t (List.filter f q)).
      { apply filter_In. split; [| exact Hf].
        apply find_some in Hfind. tauto. }
      destruct (List.filter f q); [contradiction | simpl in Hlen; lia].
    + intros Hlen. by apply IH.
Qed.

Lemma guarded_init : guarded init.
Proof. unfold guarded. simpl. repeat split; auto. Qed.

Ltac open_state st :=
  destruct st as [sl sp q nx aw lg ck ms];
  unfold guarded, slack_timers, spotify_timers in *; simpl in *.

Lemma guarded_refetchSlack n st :
  guarded st -> guarded (refetchSlackConnectStatusLazily n st).
Proof.
  unfold refetchSlackConnectStatusLazily. open_state st.
  intros [[Hlen Hnone] Hspotify].
  destruct sl as [h |]; simpl; [tauto |].
  rewrite !List.filter_app. simpl. rewrite !app_nil_r, (Hnone eq_refl). simpl.
  repeat split; try tauto; try lia; discriminate.
Qed.

Lemma guarded_refetchSpotify n st :
  guarded st -> guarded (refetchSpotifyConnectStatusLazily n st).
Proof.
  unfold refetchSpotifyConnectStatusLazily. open_state st.
  intros [Hslack [Hlen Hnone]].
  destruct sp as [h |]; simpl; [tauto |].
  rewrite !List.filter_app. simpl. rewrite !app_nil_r, (Hnone eq_refl). simpl.
  repeat split; try tauto; try lia; discriminate.
Qed.

Lemma guarded_fire h st st' :
  guarded st -> fire h st = Some st' -> guarded st'.
Proof.
  unfold fire. open_state st.
  intros [[Hl1 Hn1] [Hl2 Hn2]].
  destruct (List.find (fun t => Nat.eqb (tid t) h) q) as [t |] eqn:Hfind;
    [| discriminate].
  intros [= <-].
  pose proof (filter_filter_length (fun t => is_slack (cb t))
                (fun t => negb (Nat.eqb (tid t) h)) q) as Hs.
  pose proof (filter_filter_length (fun t => is_spotify (cb t))
                (fun t => negb (Nat.eqb (tid t) h)) q) as Hp.
  destruct (cb t) as [n | n |] eqn:Hcb; simpl.
  - assert (Hnil : List.filter (fun t => is_slack (cb t))
                     (List.filter (fun t => negb (Nat.eqb (tid t) h)) q) = []).
    { apply (filter_fired_nil _ q t h Hfind); [by rewrite Hcb | exact Hl1]. }
    rewrite Hnil. simpl.
    repeat split; try lia; auto using filter_filter_nil.
  - assert (Hnil : List.filter (fun t => is_spotify (cb t))
                     (List.filter (fun t => negb (Nat.eqb (tid t) h)) q) = []).
    { apply (filter_fired_nil _ q t h Hfind); [by rewrite Hcb | exact Hl2]. }
    rewrite Hnil. simpl.
    repeat split; try lia; auto using filter_filter_nil.
  - repeat split; try lia; auto using filter_filter_nil.
Qed.

Lemma guarded_set_awaiting a st : guarded st -> guarded (set_awaiting a st).
Proof. by open_state st. Qed.

Lemma guarded_resume i a st st' :
  guarded st -> resume i a st = Some st' -> guarded st'.
Proof.
  unfold resume. intros Hg.
  destruct (nth_error (awaiting st) i) as [[n | n | |] |],
    a as [oauth | r | loaded];
    try discriminate; intros [= <-].
  - unfold slackConnectStatusHandler.
    destruct oauth; [by open_state st |].
    destruct (0 <? n)%Z;
      [apply guarded_refetchSlack |]; by apply guarded_set_awaiting.
  - unfold spotifyConnectStatusHandler.
    destruct r as [r |]; [| by apply guarded_set_awaiting].
    destruct (negb (UserStatus.loggedOn r)).
    + destruct (0 <? n)%Z;
        [apply guarded_refetchSpotify |]; by apply guarded_set_awaiting.
    + by open_state st.
  - destruct loaded; by open_state st.
  - destruct loaded; [| by open_state st].
    open_state st. rewrite !List.filter_app. simpl. by rewrite !app_nil_r.
Qed.

Lemma guarded_step e st st' :
  guarded st -> step e st = Some st' -> guarded st'.
Proof.
  destruct e as [n | n | h | i a]; simpl; intros Hg Hstep.
  - injection Hstep as <-. by apply guarded_refetchSlack.
  - injection Hstep as <-. by apply guarded_refetchSpotify.
  - by eapply guarded_fire.
  - by eapply guarded_resume.
Qed.

Lemma reachable_guarded st : reachable st -> guarded st.
Proof.
  induction 1 as [| e st st' _ IH Hstep]; [exact guarded_init |].
  by eapply guarded_step.
Qed.

Lemma countdown_nonpos (n : Z) : (n <= 0)%Z -> countdown n = [].
Proof.
  intros Hn. unfold countdown.
  replace (Z.to_nat n) with 0%nat by lia. reflexivity.
Qed.

Lemma countdown_pos (n : Z) :
  (0 < n)%Z -> countdown n = (n - 1)%Z :: countdown (n - 1).
Proof.
  intros Hn. unfold countdown.
  replace (Z.to_nat n) with (S (Z.to_nat (n - 1))) by lia.
  rewrite <- cons_seq, <- (seq_shift _ 1). cbn [List.map].
  rewrite List.map_map. f_equal.
  apply List.map_ext. intros k. lia.
Qed.

Lemma countdown_length (n : Z) : length (countdown n) = Z.to_nat n.
Proof. unfold countdown. by rewrite length_map, length_seq. Qed.

(** One round on a state whose only timer is a spotify tick and where no
    handler is suspended. *)
Lemma unmet_round_spotify sl sp h d n nx lg ck ms :
  unmet_round (mkState sl sp [mkTimer h d (SpotifyTick n)] nx [] lg ck ms)
  = Some (if (0 <? n)%Z
          then mkState sl (Some nx)
                 [mkTimer nx 10000 (SpotifyTick (n - 1))] (S nx) []
                 (lg ++ [(10000%Z, SpotifyTick (n - 1))])
                 (ck ++ [SpotifyHandler n]) ms
          else mkState sl None [] nx [] lg (ck ++ [SpotifyHandler n]) ms).
Proof.
  unfold unmet_round, fire. simpl. rewrite Nat.eqb_refl. simpl.
  unfold resume, remove_nth, set_awaiting. simpl.
  unfold refetchSpotifyConnectStatusLazily. simpl.
  by destruct (0 <? n)%Z.
Qed.

(** The rounds of a never-connected spotify poll, by induction on the count
    the outstanding timer carries. *)
Lemma run_unmet_spotify (k : nat) :
  forall n sl sp h d nx lg ck ms fuel,
    Z.to_nat n = k ->
    (k < fuel)%nat ->
    run_unmet fuel
      (mkState sl sp [mkTimer h d (SpotifyTick n)] nx [] lg ck ms)
    = Some (mkState sl None [] (nx + k) []
              (lg ++ List.map (fun c => (10000%Z, SpotifyTick c)) (countdown n))
              (ck ++ List.map SpotifyHandler (n :: countdown n)) ms).
Proof.
  induction k as [| k IH]; intros n sl sp h d nx lg ck ms fuel Hk Hfuel;
    (destruct fuel as [| fuel]; [lia |]);
    cbn [run_unmet queue]; rewrite unmet_round_spotify.
  - assert (Hn : (0 <? n)%Z = false) by (apply Z.ltb_ge; lia).
    rewrite Hn, countdown_nonpos by lia. simpl.
    rewrite app_nil_r, Nat.add_0_r. destruct fuel; reflexivity.
  - assert (Hn : (0 <? n)%Z = true) by (apply Z.ltb_lt; lia).
    rewrite Hn, (IH (n - 1)%Z) by lia.
    rewrite (countdown_pos n) by lia. cbn [List.map].
    rewrite <- !app_assoc. cbn [app].
    replace (S nx + k)%nat with (nx + S k)%nat by lia. reflexivity.
Qed.

(** C5, as amended.  A spotify connection poll started with the count [n]
    whose condition is never met comes to rest after [Z.to_nat n + 1] rounds.  It checks the
    condition once per round, with the counts [n], [n-1], ..., [0]; after the
    timer the caller's entry set, the handler sets a timer again
    [Z.to_nat n] times, each time with the count decreased by one.  The
    check at count zero sets nothing, shows no message, and leaves no timer
    and no suspended handler: nothing can fire or resume afterwards. *)
Theorem spotify_poll_terminates (n : Z) (fuel : nat) :
  (Z.to_nat n < fuel)%nat ->
  exists st',
    run_unmet fuel (refetchSpotifyConnectStatusLazily n init) = Some st'
    /\ checks st' = List.map SpotifyHandler (n :: countdown n)
    /\ set_log st'
       = set_log (refetchSpotifyConnectStatusLazily n init)
         ++ List.map (fun c => (10000%Z, SpotifyTick c)) (countdown n)
    /\ length (countdown n) = Z.to_nat n
    /\ messages st' = []
    /\ queue st' = [] /\ awaiting st' = [] /\ spotifyFetchTimeout st' = None
    /\ (forall h, fire h st' = None)
    /\ (forall i a, resume i a st' = None).
Proof.
  intros Hfuel. eexists. split.
  - unfold refetchSpotifyConnectStatusLazily, init. simpl.
    unfold set_spotifyFetchTimeout. simpl.
    by apply (run_unmet_spotify (Z.to_nat n)).
  - simpl. repeat split; auto using countdown_length.
    intros [| i] a; reflexivity.
Qed.

(** C8.  In every state the module can reach, each condition has at most one
    outstanding timer, and entering a condition's entry point while one of its
    timers is outstanding leaves the state as it is, whatever count is
    passed. *)
Theorem one_outstanding_timer_per_condition st :
  reachable st ->
  ((length (slack_timers st) <= 1)%nat
   /\ (length (spotify_timers st) <= 1)%nat)
  /\ (forall n, slack_timers st <> [] ->
               refetchSlackConnectStatusLazily n st = st)
  /\ (forall n, spotify_timers st <> [] ->
               refetchSpotifyConnectStatusLazily n st = st).
Proof.
  intros Hreach.
  destruct (reachable_guarded st Hreach) as [[Hl1 Hn1] [Hl2 Hn2]].
  repeat split; try assumption.
  - intros n Hne. unfold refetchSlackConnectStatusLazily.
    destruct (slackFetchTimeout st); [reflexivity | tauto].
  - intros n Hne. unfold refetchSpotifyConnectStatusLazily.
    destruct (spotifyFetchTimeout st); [reflexivity | tauto].
Qed.

End PollingFacts.

(** With [tryCountUntilFound = 2]: three checks, with the counts 2, 1 and 0;
    the timer of the caller's entry and two more set by the handler. *)
Lemma spotify_poll_terminates_witness :
  exists st',
    Polling.run_unmet 3
      (Polling.refetchSpotifyConnectStatusLazily 2 Polling.init) = Some st'
    /\ Polling.checks st'
       = [Polling.SpotifyHandler 2; Polling.SpotifyHandler 1;
          Polling.SpotifyHandler 0]
    /\ Polling.set_log st'
       = [(10000%Z, Polling.SpotifyTick 2)]
         ++ [(10000%Z, Polling.SpotifyTick 1); (10000%Z, Polling.SpotifyTick 0)]
    /\ Polling.queue st' = [].
Proof.
  destruct (spotify_poll_terminates 2 3) as (st' & Hrun & Hchecks & Hlog & H);
    [simpl; lia |].
  exists st'. split; [exact Hrun |].
  split; [exact Hchecks |]. split; [exact Hlog | tauto].
Defined.

(** C5 as stated fails on the count of timers.  Started with the count 2, the
    poll has a third timer outstanding after two unmet checks; that timer
    fires and starts a third check, at count 0, which sets nothing and ends
    the poll: three timers set and fired, three checks, the last without a
    decrement. *)
Lemma spotify_poll_count_two_fires_three_timers :
  exists st1 st2 st3,
    Polling.unmet_round
      (Polling.refetchSpotifyConnectStatusLazily 2 Polling.init) = Some st1
    /\ Polling.unmet_round st1 = Some st2
    /\ Polling.queue st2
       = [Polling.mkTimer 2 10000 (Polling.SpotifyTick 0)]
    /\ Polling.fire 2 st2 <> None
    /\ Polling.unmet_round st2 = Some st3
    /\ Polling.checks st3
       = [Polling.SpotifyHandler 2; Polling.SpotifyHandler 1;
          Polling.SpotifyHandler 0]
    /\ Polling.set_log st3
       = [(10000%Z, Polling.SpotifyTick 2); (10000%Z, Polling.SpotifyTick 1);
          (10000%Z, Polling.SpotifyTick 0)]
    /\ Polling.set_log st3 = Polling.set_log st2
    /\ Polling.queue st3 = [].
Proof.
  do 3 eexists. vm_compute.
  split; [reflexivity |]. split; [reflexivity |]. split; [reflexivity |].
  split; [discriminate |]. by repeat split.
Qed.

(** Both polls started, then both entry points entered again. *)
Lemma one_outstanding_timer_per_condition_witness :
  let st := Polling.refetchSlackConnectStatusLazily 40
              (Polling.refetchSpotifyConnectStatusLazily 40 Polling.init) in
  ((length (Polling.slack_timers st) <= 1)%nat
   /\ (length (Polling.spotify_timers st) <= 1)%nat)
  /\ Polling.refetchSlackConnectStatusLazily 7 st = st
  /\ Polling.refetchSpotifyConnectStatusLazily 7 st = st.
Proof.
  intros st.
  assert (Hreach : Polling.reachable st).
  { apply (Polling.reach_step (Polling.CallSlack 40)
             (Polling.refetchSpotifyConnectStatusLazily 40 Polling.init));
      [| reflexivity].
    apply (Polling.reach_step (Polling.CallSpotify 40) Polling.init);
      [apply Polling.reach_init | reflexivity]. }
  destruct (one_outstanding_timer_per_condition st Hreach)
    as (Hlen & Hslack & Hspotify).
  split; [exact Hlen |].
  split; [apply Hslack | apply Hspotify]; discriminate.
Defined.

(** ** The playlist fetch and its retry *)

Section PlaylistsFacts.
Import Js Playlists.

Variable Rest : Type.
Variable reconcilePlaylists : DataMgr Rest -> DataMgr Rest.
Variable fetchSavedPlaylists : DataMgr Rest -> DataMgr Rest.
Variable populateGeneratedPlaylists : DataMgr Rest -> DataMgr Rest.

Local Abbreviation populateSpotifyPlaylists :=
  (Playlists.populateSpotifyPlaylists Rest reconcilePlaylists
     fetchSavedPlaylists populateGeneratedPlaylists).
Local Abbreviation at_fetch :=
  (Playlists.at_fetch Rest reconcilePlaylists fetchSavedPlaylists).

Lemma is_error_status_ge {A : Type} (s : Z) :
  (400 <= s)%Z -> is_error_status (@StatusOnly A s) = true.
Proof.
  intros Hs. unfold is_error_status, truthy.
  apply andb_true_iff. split.
  - apply negb_true_iff, Z.eqb_neq. lia.
  - apply Z.leb_le. lia.
Qed.

(** What the call does up to the answer of the playlist fetch. *)
Lemma before_fetch devices (w : World Rest) :
  on_dataMgr Rest fetchSavedPlaylists
    (populateSpotifyDevices Rest devices
       (on_dataMgr Rest (clear_raw Rest)
          (on_dataMgr Rest reconcilePlaylists w)))
  = mkWorld (at_fetch devices (dataMgr w))
            (timers w ++ device_timer devices) (controls w).
Proof.
  unfold Playlists.at_fetch, device_timer, populateSpotifyDevices, on_dataMgr,
    Playlists.setTimeout.
  destruct (is_rate_limited devices); simpl; [by rewrite app_nil_r | done].
Qed.

(** C1, as amended.  When the playlist fetch answers with a status of 400 or
    more, the call returns normally, sets one timer that runs the same
    function again after 3000 ms, and writes nothing of the answer into the
    data manager.  The displayed list after the call is the displayed list
    before it, where the data manager's own methods, which run as on any
    other call, leave it alone: the function itself never writes it.  The
    raw playlist orderings were emptied before the fetch: where the data
    manager's own methods leave them alone, both are empty after the call. *)
Theorem populateSpotifyPlaylists_error_retries devices s ctx w :
  (400 <= s)%Z ->
  let r := populateSpotifyPlaylists devices (StatusOnly s) ctx w in
  r.1 = Returned tt
  /\ timers r.2
     = timers w ++ device_timer devices
       ++ [(3000%Z, RetryPopulateSpotifyPlaylists)]
  /\ retries r.2 = S (retries w)
  /\ dataMgr r.2
     = set_spotifyContext Rest ctx
         (populateGeneratedPlaylists (at_fetch devices (dataMgr w)))
  /\ (keeps_displayed reconcilePlaylists ->
      keeps_displayed fetchSavedPlaylists ->
      keeps_displayed populateGeneratedPlaylists ->
      currentPlaylists (dataMgr r.2) = currentPlaylists (dataMgr w))
  /\ (keeps_raw fetchSavedPlaylists ->
      keeps_raw populateGeneratedPlaylists ->
      rawPlaylists (dataMgr r.2) = []
      /\ origRawPlaylistOrder (dataMgr r.2) = []).
Proof.
  intros Hs r. subst r.
  unfold Playlists.populateSpotifyPlaylists.
  rewrite before_fetch, is_error_status_ge by exact Hs.
  cbn -[at_fetch device_timer].
  split; [reflexivity |]. split; [by rewrite <- app_assoc |].
  split.
  { unfold retries. cbn -[device_timer].
    rewrite !List.filter_app, !length_app.
    unfold device_timer. destruct (is_rate_limited devices); simpl; lia. }
  split; [reflexivity |].
  split.
  { intros Hreconcile Hsaved Hgenerated.
    cbn [dataMgr set_spotifyContext currentPlaylists].
    rewrite Hgenerated. unfold Playlists.at_fetch. rewrite Hsaved.
    destruct (is_rate_limited devices);
      cbn [set_currentDevices clear_raw currentPlaylists];
      apply Hreconcile. }
  intros Hsaved Hgenerated.
  destruct (Hgenerated (at_fetch devices (dataMgr w))) as [-> ->].
  unfold Playlists.at_fetch.
  match goal with
  | |- context [fetchSavedPlaylists ?m] =>
      destruct (Hsaved m) as [-> ->]
  end.
  by destruct (is_rate_limited devices).
Qed.

End PlaylistsFacts.

(** The data manager's own methods taken as leaving it as it is; the
    displayed list and both raw orderings are [A, B] and the fetch answers
    with the status 503. *)
Lemma populateSpotifyPlaylists_error_retries_witness :
  let A := Playlists.mkPlaylist "a" "A" in
  let B := Playlists.mkPlaylist "b" "B" in
  let w := Playlists.mkWorld
             (Playlists.mkDataMgr [A; B] [A; B] [A; B] Playlists.Nothing None tt)
             [] [] in
  let r := Playlists.populateSpotifyPlaylists unit id id id
             (Playlists.Items []) (Playlists.StatusOnly 503) None w in
  Playlists.retries r.2 = 1%nat
  /\ Playlists.currentPlaylists (Playlists.dataMgr r.2) = [A; B]
  /\ Playlists.rawPlaylists (Playlists.dataMgr r.2) = [].
Proof.
  intros A B w r.
  destruct (populateSpotifyPlaylists_error_retries unit id id id
              (Playlists.Items []) 503 None w)
    as (_ & _ & Hretries & _ & Hdisplayed & Hraw); [lia |].
  split; [exact Hretries |]. split.
  - apply Hdisplayed; intros m; reflexivity.
  - apply Hraw; intros m; split; reflexivity.
Defined.

(** C1 as stated fails on the raw orderings.  With [A, B] stored before the
    call and the fetch answering 503, both raw orderings are empty after the
    call, while a retry has been set. *)
Lemma populateSpotifyPlaylists_error_clears_raw :
  let A := Playlists.mkPlaylist "a" "A" in
  let B := Playlists.mkPlaylist "b" "B" in
  let w := Playlists.mkWorld
             (Playlists.mkDataMgr [A; B] [A; B] [A; B] Playlists.Nothing None tt)
             [] [] in
  let r := Playlists.populateSpotifyPlaylists unit id id id
             (Playlists.Items []) (Playlists.StatusOnly 503) None w in
  Playlists.rawPlaylists (Playlists.dataMgr w) = [A; B]
  /\ Playlists.rawPlaylists (Playlists.dataMgr r.2) = []
  /\ Playlists.origRawPlaylistOrder (Playlists.dataMgr r.2) = []
  /\ Playlists.rawPlaylists (Playlists.dataMgr r.2)
     <> Playlists.rawPlaylists (Playlists.dataMgr w)
  /\ Playlists.timers r.2
     = [(1000%Z, Playlists.GatherMusicInfoRequest);
        (3000%Z, Playlists.RetryPopulateSpotifyPlaylists)].
Proof. vm_compute. repeat split; try reflexivity. discriminate. Qed.

(** ** The liked-song seed batches *)

(** C2 fails on the code.  Of 65 liked tracks the first request carries 31
    records, one more than [batch_size], and the requests carry 31, 30 and 4
    records, not 30, 30 and 5: the batch is sent when the index, not the
    batch length, is a positive multiple of 30, and the index is tested
    after the push.  All three are [PUT /music/session/seed]. *)
Theorem seed_batches_of_65 :
  let sent := Seed.seedLikedSongSessions unit tt
                (Some (Seed.liked_tracks 65)) [] in
  Seed.batch_sizes unit sent = [31; 30; 4]%nat
  /\ List.map (fun r => (Seed.method unit r, Seed.path unit r)) sent
     = [("PUT", "/music/session/seed"); ("PUT", "/music/session/seed");
        ("PUT", "/music/session/seed")].
Proof. vm_compute. split; reflexivity. Qed.

(** The smallest list that shows it: 31 tracks go out in one request. *)
Example seed_batches_of_31 :
  Seed.batch_sizes unit
    (Seed.seedLikedSongSessions unit tt (Some (Seed.liked_tracks 31)) [])
  = [31]%nat.
Proof. vm_compute. reflexivity. Qed.

(** ** Play requests *)

Section PlaybackFacts.
Import Js Playback.

Variable SPOTIFY_LIKED_SONGS_PLAYLIST_NAME : string.
Variable PLAYLISTS_PROVIDER : string.

Local Abbreviation playSelectedItem :=
  (Playback.playSelectedItem SPOTIFY_LIKED_SONGS_PLAYLIST_NAME
     PLAYLISTS_PROVIDER).

(** C6, as amended.  A play request (not an expand) on an item that is not a
    track and whose fetched track list has no first track returns without
    changing [selectedTrackItem], without issuing a play command and without
    setting a timer, whatever the launch confirmation was.  It is not free
    of effects: once the launch is confirmed, the item has become the
    selected playlist, the provider is set and the controls have been told
    that loading began; only a declined launch leaves the state as it was. *)
Theorem playSelectedItem_empty_playlist_aborts
  playlistItem isExpand launchConfirmInfo playlistById tracks st :
  empty_playlist_request playlistItem isExpand tracks = true ->
  let r := playSelectedItem playlistItem isExpand launchConfirmInfo
             playlistById tracks st in
  r.1 = Returned tt
  /\ selectedTrackItem r.2 = selectedTrackItem st
  /\ commands r.2 = commands st
  /\ timers r.2 = timers st
  /\ (if proceed launchConfirmInfo
      then selectedPlaylist r.2 = Some playlistItem
           /\ currentProvider r.2 = PLAYLISTS_PROVIDER
           /\ controls r.2 = controls st ++ [true]
      else r.2 = st).
Proof.
  unfold empty_playlist_request, Playback.playSelectedItem.
  intros Hreq.
  apply andb_true_iff in Hreq as [Hreq Htracks].
  apply andb_true_iff in Hreq as [Htype Hexpand].
  apply negb_true_iff in Htype. rewrite Htype, Hexpand.
  destruct (proceed launchConfirmInfo); simpl; [| by repeat split].
  destruct tracks as [[| t more] |]; try discriminate; by repeat split.
Qed.

(** What such a request does write once the launch is confirmed: the
    selected playlist, the current provider and the loading state of the
    controls. *)
Lemma playSelectedItem_empty_playlist_writes
  playlistItem isExpand launchConfirmInfo playlistById tracks st :
  empty_playlist_request playlistItem isExpand tracks = true ->
  proceed launchConfirmInfo = true ->
  let r := playSelectedItem playlistItem isExpand launchConfirmInfo
             playlistById tracks st in
  selectedPlaylist r.2 = Some playlistItem
  /\ currentProvider r.2 = PLAYLISTS_PROVIDER
  /\ controls r.2 = controls st ++ [true].
Proof.
  unfold empty_playlist_request, Playback.playSelectedItem.
  intros Hreq Hproceed.
  apply andb_true_iff in Hreq as [Hreq Htracks].
  apply andb_true_iff in Hreq as [Htype Hexpand].
  apply negb_true_iff in Htype. rewrite Htype, Hexpand, Hproceed. simpl.
  destruct tracks as [[| t more] |]; try discriminate; by repeat split.
Qed.

Lemma refreshes_setTimeout d st :
  refreshes (setTimeout d launchTimeout st)
  = (refreshes st + if deferred_eqb d DeferRefreshPlaylist then 1 else 0)%nat.
Proof.
  unfold refreshes, setTimeout. simpl.
  rewrite List.filter_app, length_app. simpl.
  destruct (deferred_eqb d DeferRefreshPlaylist); simpl; lia.
Qed.

(** The play helpers issue commands and set no timer. *)
Lemma playSpotifyDesktopPlaylistTrack_timers st :
  timers (playSpotifyDesktopPlaylistTrack
            SPOTIFY_LIKED_SONGS_PLAYLIST_NAME st).2 = timers st.
Proof.
  unfold playSpotifyDesktopPlaylistTrack.
  destruct (selectedPlaylist st), (selectedTrackItem st); try reflexivity.
  by destruct (String.eqb _ _).
Qed.

Lemma launchAndPlaySpotifyWebPlaylistTrack_timers isTrack st :
  timers (launchAndPlaySpotifyWebPlaylistTrack
            SPOTIFY_LIKED_SONGS_PLAYLIST_NAME isTrack st).2 = timers st.
Proof.
  unfold launchAndPlaySpotifyWebPlaylistTrack.
  destruct (selectedPlaylist st); [| reflexivity].
  destruct (isTrack || _); [| reflexivity].
  by destruct (selectedTrackItem st).
Qed.

Lemma playItunesSelectedPlaylist_timers pos st :
  timers (playItunesSelectedPlaylist pos st).2 = timers st.
Proof. unfold playItunesSelectedPlaylist. by destruct (selectedPlaylist st). Qed.

Lemma play_step_now_or_after_launch isLaunching later now :
  deferred_eqb later DeferRefreshPlaylist = false ->
  (forall st, timers (now st).2 = timers st) ->
  play_step (now_or_after_launch isLaunching later now).
Proof.
  intros Hlater Hnow st. unfold now_or_after_launch.
  destruct isLaunching; [right; by exists later | left; apply Hnow].
Qed.

Lemma play_step_refreshes f st :
  play_step f -> refreshes (f st).2 = refreshes st.
Proof.
  intros Hf. destruct (Hf st) as [Ht | (d & Hd & Ht)]; unfold refreshes;
    rewrite Ht; [reflexivity |].
  rewrite List.filter_app, length_app. simpl. rewrite Hd. simpl. lia.
Qed.

(** The last statement after a play step. *)
Lemma refresh_if_launching_after launchConfirmInfo f st st' :
  play_step f ->
  refresh_if_launching launchConfirmInfo (f st) = (Returned tt, st') ->
  refreshes st'
  = (refreshes st + if isLaunching launchConfirmInfo then 1 else 0)%nat
  /\ (isLaunching launchConfirmInfo = true ->
      exists pre, timers st' = pre ++ [(launchTimeout, DeferRefreshPlaylist)]).
Proof.
  intros Hf. pose proof (play_step_refreshes f st Hf) as Hsame.
  unfold refresh_if_launching.
  destruct (f st) as [[[] | e] st1]; [| discriminate]. simpl in Hsame.
  destruct (isLaunching launchConfirmInfo); intros [= <-].
  - rewrite refreshes_setTimeout, Hsame. simpl.
    split; [reflexivity |]. intros _. by exists (timers st1).
  - split; [lia | discriminate].
Qed.

Lemma play_step_itunes pos : play_step (playItunesSelectedPlaylist pos).
Proof. intros st. left. apply playItunesSelectedPlaylist_timers. Qed.

Lemma play_step_skip : play_step (fun st => (Returned tt, st)).
Proof. intros st. by left. Qed.

Lemma play_step_desktop isLaunching :
  play_step
    (now_or_after_launch isLaunching DeferPlaySpotifyDesktop
       (detached (playSpotifyDesktopPlaylistTrack
                    SPOTIFY_LIKED_SONGS_PLAYLIST_NAME))).
Proof.
  apply play_step_now_or_after_launch; [reflexivity |].
  intros st. apply playSpotifyDesktopPlaylistTrack_timers.
Qed.

Lemma play_step_web isLaunching isTrack :
  play_step
    (now_or_after_launch isLaunching (DeferPlaySpotifyWeb isTrack)
       (detached (launchAndPlaySpotifyWebPlaylistTrack
                    SPOTIFY_LIKED_SONGS_PLAYLIST_NAME isTrack))).
Proof.
  apply play_step_now_or_after_launch; [reflexivity |].
  intros st. apply launchAndPlaySpotifyWebPlaylistTrack_timers.
Qed.

Lemma play_step_itunes_playlist isLaunching :
  play_step
    (now_or_after_launch isLaunching (DeferPlayItunes 1)
       (playItunesSelectedPlaylist 1)).
Proof.
  apply play_step_now_or_after_launch; [reflexivity |].
  intros st. apply playItunesSelectedPlaylist_timers.
Qed.

Create HintDb play.
Local Hint Resolve play_step_itunes play_step_skip play_step_desktop
  play_step_web play_step_itunes_playlist : play.

Ltac after_play :=
  match goal with
  | |- refresh_if_launching ?i (?f ?s) = _ -> _ =>
      let H := fresh "Hend" in
      intros H;
      apply (refresh_if_launching_after i f s) in H; [| auto with play];
      exact H
  end.

(** C7, as amended.  A confirmed play request that is not the request on an
    empty playlist and that returns sets the list refresh exactly when the
    confirmation says a backend is being launched: then the refresh is the
    last timer the call sets, with the 4000 ms launch delay; with a device
    already active the call sets no list refresh. *)
Theorem refresh_scheduled_iff_launching
  playlistItem isExpand launchConfirmInfo playlistById tracks st st' :
  proceed launchConfirmInfo = true ->
  empty_playlist_request playlistItem isExpand tracks = false ->
  playSelectedItem playlistItem isExpand launchConfirmInfo playlistById
    tracks st = (Returned tt, st') ->
  refreshes st'
  = (refreshes st + if isLaunching launchConfirmInfo then 1 else 0)%nat
  /\ (isLaunching launchConfirmInfo = true ->
      exists pre, timers st' = pre ++ [(launchTimeout, DeferRefreshPlaylist)]).
Proof.
  intros Hproceed Hreq.
  unfold Playback.playSelectedItem, empty_playlist_request in *.
  rewrite Hproceed. cbn [negb].
  destruct (String.eqb (item_type playlistItem) "track").
  - cbn [selectedPlaylist set_selectedTrackItem set_currentProvider
           syncControls].
    destruct (selectedPlaylist st);
      (destruct (PlayerType_eqb _ _); [| destruct (PlayerName_eqb _ _)]);
      after_play.
  - cbn [negb andb] in Hreq.
    destruct isExpand; cbn [negb andb] in *.
    + change (Returned tt, ?s) with ((fun st => (@Returned unit tt, st)) s).
      after_play.
    + destruct tracks as [[| t more] |]; try discriminate.
      destruct (PlayerType_eqb _ _); [| destruct (PlayerName_eqb _ _)];
        after_play.
Qed.

End PlaybackFacts.

(** An empty playlist is played while a track of another playlist is
    selected: the selected track stays, nothing is played, no timer is set;
    the empty playlist is now the selected one and the controls show
    loading. *)
Lemma playSelectedItem_empty_playlist_aborts_witness :
  let playlist := Playback.mkItem "playlist" "p2" "Empty" Playback.WebSpotify
                    None "" in
  let track := Playback.mkItem "track" "t1" "Song" Playback.WebSpotify
                 (Some 1%Z) "p1" in
  let st := Playback.mkState (Some track) None "" [] [] [] in
  let r := Playback.playSelectedItem "Liked Songs" "playlists" playlist false
             (Playback.mkConfirm true true Playback.SpotifyWeb) None
             (Some []) st in
  r.1 = Js.Returned tt
  /\ Playback.selectedTrackItem r.2 = Some track
  /\ Playback.commands r.2 = []
  /\ Playback.timers r.2 = []
  /\ Playback.selectedPlaylist r.2 = Some playlist
     /\ Playback.currentProvider r.2 = "playlists"
     /\ Playback.controls r.2 = [true].
Proof.
  intros playlist track st r.
  apply (playSelectedItem_empty_playlist_aborts "Liked Songs" "playlists"
           playlist false (Playback.mkConfirm true true Playback.SpotifyWeb)
           None (Some []) st).
  reflexivity.
Defined.

(** C6 as stated fails on "no side effects".  With another playlist selected
    and the controls idle, a confirmed play request on an empty playlist
    returns with the empty playlist selected, the provider set and the
    controls told that loading began: the state after differs from the state
    before. *)
Lemma playSelectedItem_empty_playlist_has_effects :
  let playlist := Playback.mkItem "playlist" "p2" "Empty" Playback.WebSpotify
                    None "" in
  let other := Playback.mkItem "playlist" "p1" "Focus" Playback.WebSpotify
                 None "" in
  let st := Playback.mkState None (Some other) "" [] [] [] in
  let r := Playback.playSelectedItem "Liked Songs" "playlists" playlist false
             (Playback.mkConfirm true false Playback.SpotifyWeb) None
             (Some []) st in
  Playback.empty_playlist_request playlist false (Some []) = true
  /\ r.1 = Js.Returned tt
  /\ Playback.selectedPlaylist st = Some other
  /\ Playback.selectedPlaylist r.2 = Some playlist
  /\ Playback.currentProvider r.2 = "playlists"
  /\ Playback.controls st = []
  /\ Playback.controls r.2 = [true]
  /\ r.2 <> st.
Proof. vm_compute. repeat split; try reflexivity. discriminate. Qed.

(** A playlist with one track, played on the web player that has to be
    launched first: a play timer, then the list refresh. *)
Lemma refresh_scheduled_iff_launching_witness :
  let playlist := Playback.mkItem "playlist" "p1" "Focus" Playback.WebSpotify
                    None "" in
  let track := Playback.mkItem "track" "t1" "Song" Playback.WebSpotify
                 (Some 1%Z) "p1" in
  let st := Playback.mkState None None "" [] [] [] in
  let r := Playback.playSelectedItem "Liked Songs" "playlists" playlist false
             (Playback.mkConfirm true true Playback.SpotifyWeb) None
             (Some [track]) st in
  Playback.refreshes r.2 = 1%nat.
Proof.
  intros playlist track st r.
  apply (refresh_scheduled_iff_launching "Liked Songs" "playlists" playlist
           false (Playback.mkConfirm true true Playback.SpotifyWeb) None
           (Some [track]) st r.2);
    reflexivity.
Defined.

(** C7 as stated fails when a device is already active.  A track is played
    on the web player with no launch: the play command goes out and no timer
    at all is set, so no list refresh follows. *)
Lemma no_refresh_when_device_active :
  let playlist := Playback.mkItem "playlist" "p1" "Focus" Playback.WebSpotify
                    None "" in
  let track := Playback.mkItem "track" "t1" "Song" Playback.WebSpotify
                 (Some 1%Z) "p1" in
  let st := Playback.mkState None None "" [] [] [] in
  let r := Playback.playSelectedItem "Liked Songs" "playlists" track false
             (Playback.mkConfirm true false Playback.SpotifyWeb)
             (Some playlist) None st in
  r.1 = Js.Returned tt
  /\ Playback.commands r.2 = [Playback.LaunchAndPlaySpotifyTrack "t1" "p1"]
  /\ Playback.timers r.2 = []
  /\ Playback.refreshes r.2 = 0%nat.
Proof. vm_compute. repeat split; reflexivity. Qed.

(** ** The seed batches in general *)

Section SeedFacts.
Import Js Seed SeedLoop.

Variable FileMetrics : Type.
Variable fileMetrics : FileMetrics.

Local Abbreviation seed_loop := (Seed.seed_loop FileMetrics fileMetrics).
Local Abbreviation seedLikedSongSessions :=
  (Seed.seedLikedSongSessions FileMetrics fileMetrics).
Local Abbreviation batch_sizes := (Seed.batch_sizes FileMetrics).
Local Abbreviation records := (SeedLoop.records FileMetrics).
Local Abbreviation loop_state := (SeedLoop.loop_state FileMetrics).

Lemma seed_loop_records l :
  forall i batch sent batch' sent',
    seed_loop i l batch sent = (batch', sent') ->
    records sent' ++ batch'
    = records sent ++ batch ++ List.map (fun t => (mark t, fileMetrics)) l.
Proof.
  unfold SeedLoop.records.
  induction l as [| t l IH]; intros i batch sent batch' sent';
    cbn [Seed.seed_loop List.map].
  - intros [= <- <-]. by rewrite app_nil_r.
  - destruct ((0 <? i)%nat && (i mod batch_size =? 0)%nat); intros Hloop;
      apply IH in Hloop; rewrite Hloop.
    + unfold sendBatchedLikedSongSessions.
      rewrite List.map_app, concat_app. cbn [List.map concat tracks].
      by rewrite app_nil_r, <- !app_assoc.
    + by rewrite <- !app_assoc.
Qed.

Lemma loop_state_step i batch sent t :
  loop_state i batch sent ->
  if (0 <? i)%nat && (i mod batch_size =? 0)%nat
  then loop_state (S i) []
         (sendBatchedLikedSongSessions FileMetrics
            (batch ++ [(mark t, fileMetrics)]) sent)
  else loop_state (S i) (batch ++ [(mark t, fileMetrics)]) sent.
Proof.
  intros Hst. unfold batch_size, SeedLoop.loop_state in *.
  pose proof (Nat.div_mod_eq i 30) as Hi.
  pose proof (Nat.mod_upper_bound i 30 ltac:(lia)) as Hlt.
  pose proof (Nat.div_mod_eq (i - 1) 30) as Hp.
  pose proof (Nat.mod_upper_bound (i - 1) 30 ltac:(lia)) as Hplt.
  replace (S i - 1)%nat with i by lia.
  destruct (0 <? i)%nat eqn:Hpos; cbn [andb].
  2: { apply Nat.ltb_ge in Hpos.
       destruct Hst as [(Hle & Hlen & ->) | (Hgt & _)]; [| lia].
       left. rewrite length_app. cbn [length]. repeat split; lia. }
  apply Nat.ltb_lt in Hpos.
  destruct (i mod 30 =? 0)%nat eqn:Hmod.
  - apply Nat.eqb_eq in Hmod. right.
    split; [lia |]. split; [cbn [length]; lia |].
    unfold Seed.batch_sizes, sendBatchedLikedSongSessions in *.
    rewrite List.map_app. cbn [List.map tracks]. rewrite length_app.
    cbn [length].
    destruct Hst as [(Hle & Hlen & ->) | (Hgt & Hlen & more & Hsz & Hall)].
    + exists []. split; [| constructor].
      cbn [List.map app]. do 2 f_equal. lia.
    + exists (more ++ [30%nat]). rewrite Hsz.
      split; [cbn [app]; do 3 f_equal; lia |].
      apply Forall_app. split; [exact Hall | by repeat constructor].
  - apply Nat.eqb_neq in Hmod.
    destruct Hst as [(Hle & Hlen & ->) | (Hgt & Hlen & more & Hsz & Hall)].
    + left. rewrite length_app. cbn [length]. repeat split; lia.
    + right. rewrite length_app. cbn [length].
      split; [lia |]. split; [lia |]. by exists more.
Qed.

Lemma seed_loop_state l :
  forall i batch sent batch' sent',
    loop_state i batch sent ->
    seed_loop i l batch sent = (batch', sent') ->
    loop_state (i + length l) batch' sent'.
Proof.
  induction l as [| t l IH]; intros i batch sent batch' sent' Hst;
    cbn [Seed.seed_loop length].
  - intros [= <- <-]. by rewrite Nat.add_0_r.
  - pose proof (loop_state_step i batch sent t Hst) as Hstep.
    replace (i + S (length l))%nat with (S i + length l)%nat by lia.
    destruct ((0 <? i)%nat && (i mod batch_size =? 0)%nat); by apply IH.
Qed.

(** The records sent by a call are the marked tracks, in order. *)
Lemma seedLikedSongSessions_records likedSongs sent :
  records (seedLikedSongSessions likedSongs sent)
  = records sent
    ++ List.map (fun t => (mark t, fileMetrics)) (default [] likedSongs).
Proof.
  unfold Seed.seedLikedSongSessions.
  destruct likedSongs as [l |]; cbn [default List.map];
    [| by rewrite app_nil_r].
  destruct l as [| t l]; [by rewrite app_nil_r |].
  change (0 <? length (t :: l))%nat with true. cbv iota.
  destruct (seed_loop 0 (t :: l) [] sent) as [batch sent'] eqn:Hloop.
  apply seed_loop_records in Hloop. cbn [app] in Hloop.
  destruct batch as [| b batch].
  - cbn [length Nat.ltb Nat.leb]. by rewrite app_nil_r in Hloop.
  - change (0 <? length (b :: batch))%nat with true. cbv iota.
    unfold sendBatchedLikedSongSessions, SeedLoop.records in *.
    rewrite List.map_app, concat_app. cbn [List.map concat tracks].
    by rewrite app_nil_r.
Qed.

(** No liked song is lost, repeated or reordered by the batching: the track
    ids of the records sent, read request after request, are the track ids
    of the liked songs, and every record carries the same file metrics. *)
Theorem seed_sends_each_track_once likedSongs :
  let sent := seedLikedSongSessions likedSongs [] in
  List.map (fun r => track_id r.1) (records sent)
  = List.map track_id (default [] likedSongs)
  /\ Forall (fun r => r.2 = fileMetrics) (records sent).
Proof.
  cbv zeta. rewrite seedLikedSongSessions_records.
  unfold SeedLoop.records. cbn [List.map concat app].
  split.
  - rewrite List.map_map. by apply List.map_ext.
  - apply Forall_forall. intros r Hin.
    apply list_elem_of_In, in_map_iff in Hin as (t & <- & _). reflexivity.
Qed.

(** Every record sent is marked as liked, and its playlist id is the one the
    track came with when that is non-empty, and ["Liked Songs"] otherwise. *)
Theorem seed_marks_every_record likedSongs :
  let sent := seedLikedSongSessions likedSongs [] in
  List.map (fun r => playlistId r.1) (records sent)
  = List.map (fun t => if truthy_str (playlistId t) then playlistId t
                       else Some "Liked Songs")
      (default [] likedSongs)
  /\ Forall (fun r => liked r.1 = true) (records sent).
Proof.
  cbv zeta. rewrite seedLikedSongSessions_records.
  unfold SeedLoop.records. cbn [List.map concat app].
  split.
  - rewrite List.map_map. by apply List.map_ext.
  - apply Forall_forall. intros r Hin.
    by apply list_elem_of_In, in_map_iff in Hin as (t & <- & _).
Qed.

(** The sizes of the requests of one call: every request carries at least
    one and at most 31 records, only the first can carry more than 30, and it
    carries 31 as soon as there are 31 liked songs; up to 30 liked songs go
    out in a single request, and none at all when there is no liked song. *)
Theorem seed_request_sizes (l : list Track) :
  let bs := batch_sizes (seedLikedSongSessions (Some l) []) in
  Forall (fun b => 1 <= b <= 31)%nat bs
  /\ Forall (fun b => b <= 30)%nat (tl bs)
  /\ (31 <= length l -> hd 0%nat bs = 31%nat)%nat
  /\ (0 < length l <= 30 -> bs = [length l])%nat
  /\ (l = [] -> bs = []).
Proof.
  cbv zeta. unfold Seed.seedLikedSongSessions.
  destruct l as [| t l].
  { cbn. repeat split; auto; try constructor; cbn; lia. }
  change (0 <? length (t :: l))%nat with true. cbv iota.
  destruct (seed_loop 0 (t :: l) [] []) as [batch sent'] eqn:Hloop.
  apply seed_loop_state in Hloop;
    [| left; split; [lia | split; reflexivity]].
  cbn [Nat.add] in Hloop.
  set (n := length (t :: l)) in *.
  assert (Hn : (0 < n)%nat) by (subst n; cbn [length]; lia).
  pose proof (Nat.mod_upper_bound (n - 1) 30 ltac:(lia)) as Hmod.
  destruct Hloop as [(Hle & Hlen & ->) | (Hgt & Hlen & more & Hsz & Hall)].
  - destruct batch as [| b batch]; [cbn [length] in Hlen; lia |].
    change (0 <? length (b :: batch))%nat with true. cbv iota.
    unfold Seed.batch_sizes, sendBatchedLikedSongSessions.
    cbn [app List.map tracks hd tl]. rewrite Hlen.
    split; [constructor; [lia | constructor] |].
    split; [constructor |].
    split; [intros; lia |].
    split; [reflexivity | discriminate].
  - assert (Hm1 : Forall (fun b => 1 <= b <= 31)%nat more).
    { eapply Forall_impl; [exact Hall |]. cbv beta. intros; lia. }
    assert (Hm2 : Forall (fun b => b <= 30)%nat more).
    { eapply Forall_impl; [exact Hall |]. cbv beta. intros; lia. }
    destruct batch as [| b batch].
    + cbn [length Nat.ltb Nat.leb]. rewrite Hsz. cbn [hd tl].
      split; [constructor; [lia | exact Hm1] |].
      split; [exact Hm2 |].
      split; [reflexivity |].
      split; [intros; lia | discriminate].
    + change (0 <? length (b :: batch))%nat with true. cbv iota.
      unfold Seed.batch_sizes, sendBatchedLikedSongSessions in *.
      rewrite List.map_app, Hsz. cbn [app List.map tracks hd tl].
      assert (Hlast : (1 <= length (b :: batch) <= 30)%nat)
        by (cbn [length] in *; lia).
      split.
      { constructor; [lia |]. apply Forall_app. split; [exact Hm1 |].
        constructor; [lia | constructor]. }
      split.
      { apply Forall_app. split; [exact Hm2 |].
        constructor; [lia | constructor]. }
      split; [reflexivity |].
      split; [intros; lia | discriminate].
Qed.

End SeedFacts.

(** ** What the status call writes *)

Section UserStatusWriteFacts.
Import Js UserStatus UserStatusWrites.

Variable isResponseOk : Response -> bool.

Local Abbreviation getMusicTimeUserStatus :=
  (UserStatus.getMusicTimeUserStatus isResponseOk).

(** A record of type ["spotify"] is not of type ["slack"]. *)
Lemma slack_not_spotify (a : Auth) :
  is_slack_auth a = true -> is_spotify_auth a = false.
Proof.
  unfold is_slack_auth, is_spotify_auth, str_is.
  destruct (auth_type a) as [t |]; [| discriminate].
  intros Hslack. apply String.eqb_eq in Hslack. subst t. reflexivity.
Qed.

(** The loop over the records touches nothing but the two update lists, and
    appends to each the records of its kind, in order. *)
Lemma auth_loop_world (l : list Auth) :
  forall b w,
    let w' := (fold_left auth_step l (b, w)).2 in
    items w' = items w
    /\ requests w' = requests w
    /\ spotify_updates w' = spotify_updates w ++ List.filter is_spotify_auth l
    /\ slack_updates w' = slack_updates w ++ List.filter is_slack_auth l.
Proof.
  induction l as [| a l IH]; intros b w; cbv zeta;
    cbn [fold_left List.filter].
  - cbn. by rewrite !app_nil_r.
  - destruct (is_spotify_auth a) eqn:Hsp.
    + assert (Hstep : auth_step (b, w) a = (true, updateSpotifyAccessInfo a w))
        by (unfold auth_step; by rewrite Hsp).
      assert (Hsl : is_slack_auth a = false).
      { destruct (is_slack_auth a) eqn:Hs; [| reflexivity].
        apply slack_not_spotify in Hs. congruence. }
      rewrite Hstep, Hsl.
      destruct (IH true (updateSpotifyAccessInfo a w)) as (H1 & H2 & H3 & H4).
      rewrite H1, H2, H3, H4. cbn. by rewrite <- app_assoc.
    + destruct (is_slack_auth a) eqn:Hsl.
      * assert (Hstep : auth_step (b, w) a = (b, updateSlackAccessInfo a w)).
        { unfold auth_step. rewrite Hsp. unfold is_slack_auth in Hsl.
          by rewrite Hsl. }
        rewrite Hstep.
        destruct (IH b (updateSlackAccessInfo a w)) as (H1 & H2 & H3 & H4).
        rewrite H1, H2, H3, H4. cbn. by rewrite <- app_assoc.
      * assert (Hstep : auth_step (b, w) a = (b, w)).
        { unfold auth_step. rewrite Hsp. unfold is_slack_auth in Hsl.
          by rewrite Hsl. }
        rewrite Hstep. apply IH.
Qed.

(** The world an ["OK"] body leaves: the request is logged, the store is
    written, then the records are forwarded. *)
Lemma getMusicTimeUserStatus_world_ok resp d w :
  token_available w = true ->
  isResponseOk resp = true ->
  data resp = Some d ->
  body_state d = Some "OK" ->
  (getMusicTimeUserStatus resp w).2
  = (fold_left auth_step (records d)
       (false, store_writes d (log_request "/users/plugin/state" w))).2.
Proof.
  intros Htok Hok Hdata Hstate.
  unfold UserStatus.getMusicTimeUserStatus, token_available in *.
  rewrite Htok, Hok, Hdata. fold (classify d).
  assert (Hc : String.eqb (classify d) "OK" = true) by by apply classify_ok.
  rewrite Hc. unfold records, store_writes.
  destruct (body_user d) as [u |]; [| reflexivity].
  destruct (auths u) as [[| a l] |]; try reflexivity.
  change (0 <? length (a :: l))%nat with true. cbv iota.
  unfold auth_loop, default, from_option, id.
  by destruct (fold_left auth_step (a :: l) _).
Qed.

(** Without a token the call makes no request and changes nothing. *)
Theorem getMusicTimeUserStatus_without_token resp w :
  token_available w = false ->
  getMusicTimeUserStatus resp w = (Returned (mkStatus false "UNKNOWN"), w).
Proof.
  unfold UserStatus.getMusicTimeUserStatus, token_available.
  by intros ->.
Qed.

Lemma status_world_not_ok resp w :
  token_available w = true ->
  (forall d, isResponseOk resp = true -> data resp = Some d ->
             body_state d <> Some "OK") ->
  (getMusicTimeUserStatus resp w).2 = log_request "/users/plugin/state" w.
Proof.
  intros Htok Hnot.
  unfold UserStatus.getMusicTimeUserStatus, token_available in *.
  rewrite Htok.
  destruct (isResponseOk resp); [| reflexivity].
  destruct (data resp) as [d |]; [| reflexivity].
  specialize (Hnot d eq_refl eq_refl).
  fold (classify d).
  destruct (String.eqb (classify d) "OK") eqn:Hc; [| reflexivity].
  apply classify_ok in Hc. contradiction.
Qed.

(** With a token, a response that failed, has no body, or whose state is not
    ["OK"] changes nothing but the request log: the store and both update
    lists stay as they were, whatever records the body carries. *)
Theorem getMusicTimeUserStatus_not_ok_only_logs resp w :
  token_available w = true ->
  (forall d, isResponseOk resp = true -> data resp = Some d ->
             body_state d <> Some "OK") ->
  let w' := (getMusicTimeUserStatus resp w).2 in
  items w' = items w
  /\ spotify_updates w' = spotify_updates w
  /\ slack_updates w' = slack_updates w
  /\ requests w' = requests w ++ ["/users/plugin/state"].
Proof.
  intros Htok Hnot w'. subst w'.
  by rewrite (status_world_not_ok resp w Htok Hnot).
Qed.

(** On an ["OK"] body every spotify authorization with a token is handed to
    [updateSpotifyAccessInfo] and every slack record to
    [updateSlackAccessInfo], once each and in the order of the records, and
    one request is logged. *)
Theorem getMusicTimeUserStatus_forwards_auths resp d w :
  token_available w = true ->
  isResponseOk resp = true ->
  data resp = Some d ->
  body_state d = Some "OK" ->
  let w' := (getMusicTimeUserStatus resp w).2 in
  spotify_updates w'
  = spotify_updates w ++ List.filter is_spotify_auth (records d)
  /\ slack_updates w' = slack_updates w ++ List.filter is_slack_auth (records d)
  /\ requests w' = requests w ++ ["/users/plugin/state"].
Proof.
  intros Htok Hok Hdata Hstate w'. subst w'.
  rewrite (getMusicTimeUserStatus_world_ok resp d w Htok Hok Hdata Hstate).
  destruct (auth_loop_world (records d) false
              (store_writes d (log_request "/users/plugin/state" w)))
    as (_ & -> & -> & ->).
  unfold store_writes.
  destruct (body_email d) as [e |], (body_jwt d) as [j |]; cbn;
    repeat match goal with |- context [if ?c then _ else _] => destruct c end;
    by repeat split.
Qed.

(** On an ["OK"] body that carries no authorization record the store is
    written before the user is read, so also when the user is missing and
    the call raises: a non-empty [jwt] of the body replaces the stored one, a
    non-empty [email] is stored under ["name"], no other key changes, and
    no record is handed to an update function.  The call raises exactly when
    the user is missing. *)
Theorem getMusicTimeUserStatus_ok_writes_store resp d w :
  token_available w = true ->
  isResponseOk resp = true ->
  data resp = Some d ->
  body_state d = Some "OK" ->
  records d = [] ->
  let r := getMusicTimeUserStatus resp w in
  getItem "jwt" r.2
  = (if truthy_str (body_jwt d) then VStr (default "" (body_jwt d))
     else getItem "jwt" w)
  /\ getItem "name" r.2
     = (if truthy_str (body_email d) then VStr (default "" (body_email d))
        else getItem "name" w)
  /\ (forall k, k <> "jwt" -> k <> "name" -> getItem k r.2 = getItem k w)
  /\ spotify_updates r.2 = spotify_updates w
  /\ slack_updates r.2 = slack_updates w
  /\ (returned r.1 = false <-> body_user d = None).
Proof.
  intros Htok Hok Hdata Hstate Hrec r. subst r.
  rewrite (getMusicTimeUserStatus_world_ok resp d w Htok Hok Hdata Hstate).
  rewrite (getMusicTimeUserStatus_result isResponseOk resp d w Htok Hok Hdata).
  assert (Hc : String.eqb (classify d) "OK" = true) by by apply classify_ok.
  rewrite Hc, Hrec. cbn [fold_left snd].
  assert (Hraise : returned
                     match body_user d with
                     | Some _ =>
                       Returned (mkStatus (has_spotify_auth d) (classify d))
                     | None =>
                       @Threw Status "Cannot read property 'auths' of undefined"
                     end = false
                   <-> body_user d = None).
  { destruct (body_user d); cbn; split; congruence. }
  unfold getItem, store_writes.
  destruct (body_email d) as [e |], (body_jwt d) as [j |];
    cbn [truthy_str default];
    repeat match goal with |- context [if ?c then _ else _] => destruct c end;
    cbn [setItem log_request items spotify_updates slack_updates];
    unfold default, from_option, id;
    (split; [| split; [| split; [intros k Hk1 Hk2 |]]]);
    repeat (rewrite lookup_insert_eq
            || rewrite lookup_insert_ne by (done || congruence));
    try reflexivity; (split; [reflexivity |]); (split; [reflexivity |]);
    exact Hraise.
Qed.

End UserStatusWriteFacts.

(** ** The slack authorization lookup *)

Section SlackAuthFacts.
Import Js UserStatus UserStatusWrites SlackAuth.

Variable isResponseOk : MeResponse -> bool.

Local Abbreviation getSlackOauth := (SlackAuth.getSlackOauth isResponseOk).

(** The loop is a search for the first slack record; the record found, and
    only it, is handed to [updateSlackAccessInfo]. *)
Lemma slack_loop_find (l : list Auth) (w : World) :
  slack_loop l w
  = (List.find is_slack_auth l,
     match List.find is_slack_auth l with
     | Some a => updateSlackAccessInfo a w
     | None => w
     end).
Proof.
  induction l as [| a l IH]; cbn [slack_loop List.find]; [reflexivity |].
  fold (is_slack_auth a).
  destruct (is_slack_auth a); [reflexivity | exact IH].
Qed.

(** With a stored [jwt] and a successful response that carries a user,
    [getSlackOauth] returns the first record of type ["slack"] among the
    user's records, or nothing when there is none. *)
Theorem getSlackOauth_returns_first_slack resp u w :
  truthy (getItem "jwt" w) = true ->
  isResponseOk resp = true ->
  me_data resp = Some (Some u) ->
  (getSlackOauth resp w).1 = List.find is_slack_auth (default [] (auths u)).
Proof.
  intros Hjwt Hok Hdata.
  unfold SlackAuth.getSlackOauth, getUser. rewrite Hjwt, Hok, Hdata.
  destruct (auths u) as [l |]; [| reflexivity].
  by rewrite slack_loop_find.
Qed.

(** Whatever the response, the record [getSlackOauth] returns is a slack
    record and is the one record it hands to [updateSlackAccessInfo]; when
    it returns nothing it hands none over and changes nothing but the
    request log; and without a stored [jwt] it makes no request at all. *)
Theorem getSlackOauth_effects resp w :
  let r := getSlackOauth resp w in
  slack_updates r.2
  = slack_updates w ++ match r.1 with Some a => [a] | None => [] end
  /\ (forall a, r.1 = Some a -> is_slack_auth a = true)
  /\ (r.1 = None ->
      r.2 = if truthy (getItem "jwt" w) then log_request "/users/me" w
            else w)
  /\ (truthy (getItem "jwt" w) = false -> r = (None, w)).
Proof.
  cbv zeta. unfold SlackAuth.getSlackOauth, getUser.
  destruct (truthy (getItem "jwt" w)).
  2: { cbn. rewrite app_nil_r. repeat split. discriminate. }
  destruct (isResponseOk resp).
  2: { cbn. rewrite app_nil_r. repeat split; discriminate. }
  destruct (me_data resp) as [[u |] |].
  2, 3: cbn; rewrite app_nil_r; repeat split; discriminate.
  destruct (auths u) as [l |].
  2: { cbn. rewrite app_nil_r. repeat split; discriminate. }
  rewrite slack_loop_find.
  destruct (List.find is_slack_auth l) as [a |] eqn:Hfind; cbn.
  - repeat split; try discriminate. intros a' [= <-].
    by apply find_some in Hfind as [_ Hslack].
  - rewrite app_nil_r. repeat split; discriminate.
Qed.

End SlackAuthFacts.

Lemma getSlackOauth_returns_first_slack_witness :
  let ok := fun r => (SlackAuth.me_status r <? 300)%Z in
  let w := UserStatus.mkWorld {[ "jwt" := Js.VStr "jwt-1" ]} [] [] [] in
  let spotify := UserStatus.mkAuth (Some "spotify") (Some "x") in
  let slack1 := UserStatus.mkAuth (Some "slack") (Some "y") in
  let slack2 := UserStatus.mkAuth (Some "slack") (Some "z") in
  let u := UserStatus.mkUser (Some [spotify; slack1; slack2]) in
  (SlackAuth.getSlackOauth ok (SlackAuth.mkMeResponse 200 (Some (Some u))) w).1
  = Some slack1.
Proof.
  intros ok w spotify slack1 slack2 u.
  apply (getSlackOauth_returns_first_slack ok
           (SlackAuth.mkMeResponse 200 (Some (Some u))) u w);
    reflexivity.
Defined.

Lemma getMusicTimeUserStatus_without_token_witness :
  let ok := fun r => (UserStatus.status r <? 300)%Z in
  let w := UserStatus.mkWorld {[ "jwt" := Js.VStr "" ]} [] [] [] in
  let d := UserStatus.mkBody (Some "OK") None None None in
  UserStatus.getMusicTimeUserStatus ok (UserStatus.mkResponse 200 (Some d)) w
  = (Js.Returned (UserStatus.mkStatus false "UNKNOWN"), w).
Proof.
  intros ok w d.
  apply (getMusicTimeUserStatus_without_token ok
           (UserStatus.mkResponse 200 (Some d)) w).
  reflexivity.
Defined.

Lemma getMusicTimeUserStatus_not_ok_only_logs_witness :
  let ok := fun r => (UserStatus.status r <? 300)%Z in
  let w := UserStatus.mkWorld {[ "jwt" := Js.VStr "jwt-1" ]} [] [] [] in
  let spotify := UserStatus.mkAuth (Some "spotify") (Some "x") in
  let d := UserStatus.mkBody (Some "NOT_FOUND") (Some "a@b.c") (Some "jwt-2")
             (Some (UserStatus.mkUser (Some [spotify]))) in
  let w' := (UserStatus.getMusicTimeUserStatus ok
               (UserStatus.mkResponse 200 (Some d)) w).2 in
  UserStatus.items w' = UserStatus.items w
  /\ UserStatus.spotify_updates w' = []
  /\ UserStatus.slack_updates w' = []
  /\ UserStatus.requests w' = ["/users/plugin/state"].
Proof.
  intros ok w spotify d.
  apply (getMusicTimeUserStatus_not_ok_only_logs ok
           (UserStatus.mkResponse 200 (Some d)) w); [reflexivity |].
  intros d' _ [= <-]. discriminate.
Defined.

Lemma getMusicTimeUserStatus_forwards_auths_witness :
  let ok := fun r => (UserStatus.status r <? 300)%Z in
  let w := UserStatus.mkWorld {[ "jwt" := Js.VStr "jwt-1" ]} [] [] [] in
  let spotify := UserStatus.mkAuth (Some "spotify") (Some "x") in
  let tokenless := UserStatus.mkAuth (Some "spotify") None in
  let slack := UserStatus.mkAuth (Some "slack") None in
  let d := UserStatus.mkBody (Some "OK") None None
             (Some (UserStatus.mkUser (Some [slack; tokenless; spotify]))) in
  let w' := (UserStatus.getMusicTimeUserStatus ok
               (UserStatus.mkResponse 200 (Some d)) w).2 in
  UserStatus.spotify_updates w' = [spotify]
  /\ UserStatus.slack_updates w' = [slack]
  /\ UserStatus.requests w' = ["/users/plugin/state"].
Proof.
  intros ok w spotify tokenless slack d.
  apply (getMusicTimeUserStatus_forwards_auths ok
           (UserStatus.mkResponse 200 (Some d)) d w);
    reflexivity.
Defined.

(** The body [{state:"OK", jwt:"jwt-2"}] has no user: the call raises, and
    the stored token is already the new one. *)
Lemma getMusicTimeUserStatus_ok_writes_store_witness :
  let ok := fun r => (UserStatus.status r <? 300)%Z in
  let w := UserStatus.mkWorld {[ "jwt" := Js.VStr "jwt-1" ]} [] [] [] in
  let d := UserStatus.mkBody (Some "OK") None (Some "jwt-2") None in
  let r := UserStatus.getMusicTimeUserStatus ok
             (UserStatus.mkResponse 200 (Some d)) w in
  Js.returned r.1 = false
  /\ UserStatus.getItem "jwt" r.2 = Js.VStr "jwt-2".
Proof.
  intros ok w d r.
  destruct (getMusicTimeUserStatus_ok_writes_store ok
              (UserStatus.mkResponse 200 (Some d)) d w)
    as (Hjwt & _ & _ & _ & _ & Hraise); try reflexivity.
  split; [by apply Hraise | exact Hjwt].
Defined.

(** ** Guards, handles and runs of the polls *)

Section PollingRunFacts.
Import Js Polling PollingRuns.

Lemma NoDup_map_filter {A B : Type} (g : A -> B) (f : A -> bool) (l : list A) :
  NoDup (List.map g l) -> NoDup (List.map g (List.filter f l)).
Proof.
  induction l as [| a l IH]; cbn [List.map List.filter]; [done |].
  intros Hnd. apply NoDup_cons in Hnd as [Hnotin Hnd].
  destruct (f a); cbn [List.map]; [| by apply IH].
  apply NoDup_cons. split; [| by apply IH].
  intros Hin. apply Hnotin.
  apply list_elem_of_In, in_map_iff in Hin as (x & Hx & Hxin).
  apply filter_In in Hxin as [Hxin _].
  apply list_elem_of_In, in_map_iff. by exists x.
Qed.

Lemma NoDup_map_inj {A B : Type} (g : A -> B) (l : list A) (x y : A) :
  NoDup (List.map g l) -> In x l -> In y l -> g x = g y -> x = y.
Proof.
  induction l as [| a l IH]; cbn [List.map]; [intros _ [] |].
  intros Hnd. apply NoDup_cons in Hnd as [Hnotin Hnd].
  intros [-> | Hx] [-> | Hy] Heq; try reflexivity.
  - exfalso. apply Hnotin. rewrite Heq.
    apply list_elem_of_In, in_map_iff. by exists y.
  - exfalso. apply Hnotin. rewrite <- Heq.
    apply list_elem_of_In, in_map_iff. by exists x.
  - by apply IH.
Qed.

Lemma linked_init : linked init.
Proof.
  unfold linked, slack_timer_at, spotify_timer_at. cbn.
  split; [constructor |]. split; [intros t [] |].
  split; intros h; (split; [discriminate | intros (t & [] & _)]).
Qed.

(** A timer set under a fresh handle keeps handles distinct and bounded. *)
Lemma fresh_handles (q : list timer) (nx : nat) (d : Z) (c : callback) :
  NoDup (List.map tid q) ->
  (forall t, In t q -> (tid t < nx)%nat) ->
  NoDup (List.map tid (q ++ [mkTimer nx d c]))
  /\ (forall t, In t (q ++ [mkTimer nx d c]) -> (tid t < S nx)%nat).
Proof.
  intros Hnd Hlt. split.
  - rewrite List.map_app. cbn [List.map tid].
    apply NoDup_app. split; [exact Hnd |]. split; [| apply NoDup_singleton].
    intros x Hx Hx'. apply list_elem_of_singleton in Hx'. subst x.
    apply list_elem_of_In, in_map_iff in Hx as (t & Ht & Hin).
    apply Hlt in Hin. lia.
  - intros t Hin. apply in_app_iff in Hin as [Hin | [<- | []]].
    + apply Hlt in Hin. lia.
    + cbn. lia.
Qed.

Lemma linked_refetchSlack n st :
  linked st -> linked (refetchSlackConnectStatusLazily n st).
Proof.
  unfold refetchSlackConnectStatusLazily.
  destruct st as [sl sp q nx aw lg ck ms]. cbn [slackFetchTimeout].
  destruct sl as [h0 |]; [done |].
  unfold linked, slack_timer_at, spotify_timer_at. cbn.
  intros (Hnd & Hlt & Hslack & Hspotify).
  destruct (fresh_handles q nx 10000 (SlackTick n) Hnd Hlt) as [Hnd' Hlt'].
  split; [exact Hnd' |]. split; [exact Hlt' |]. split.
  - intros h. split.
    + intros [= <-]. exists (mkTimer nx 10000 (SlackTick n)).
      split; [apply in_app_iff; right; by left | by split].
    + intros (t & Hin & <- & Hcb).
      apply in_app_iff in Hin as [Hin | [<- | []]]; [| reflexivity].
      assert (Hsome : None = Some (tid t)) by (apply Hslack; by exists t).
      discriminate.
  - intros h. rewrite Hspotify. split.
    + intros (t & Hin & Hid & Hcb). exists t.
      split; [apply in_app_iff; by left | by split].
    + intros (t & Hin & Hid & Hcb).
      apply in_app_iff in Hin as [Hin | [<- | []]]; [by exists t |].
      discriminate.
Qed.

Lemma linked_refetchSpotify n st :
  linked st -> linked (refetchSpotifyConnectStatusLazily n st).
Proof.
  unfold refetchSpotifyConnectStatusLazily.
  destruct st as [sl sp q nx aw lg ck ms]. cbn [spotifyFetchTimeout].
  destruct sp as [h0 |]; [done |].
  unfold linked, slack_timer_at, spotify_timer_at. cbn.
  intros (Hnd & Hlt & Hslack & Hspotify).
  destruct (fresh_handles q nx 10000 (SpotifyTick n) Hnd Hlt) as [Hnd' Hlt'].
  split; [exact Hnd' |]. split; [exact Hlt' |]. split.
  - intros h. rewrite Hslack. split.
    + intros (t & Hin & Hid & Hcb). exists t.
      split; [apply in_app_iff; by left | by split].
    + intros (t & Hin & Hid & Hcb).
      apply in_app_iff in Hin as [Hin | [<- | []]]; [by exists t |].
      discriminate.
  - intros h. split.
    + intros [= <-]. exists (mkTimer nx 10000 (SpotifyTick n)).
      split; [apply in_app_iff; right; by left | by split].
    + intros (t & Hin & <- & Hcb).
      apply in_app_iff in Hin as [Hin | [<- | []]]; [| reflexivity].
      assert (Hsome : None = Some (tid t)) by (apply Hspotify; by exists t).
      discriminate.
Qed.

(** The queue once the timer with handle [h] is gone. *)
Local Abbreviation without h q :=
  (List.filter (fun t : timer => negb (Nat.eqb (tid t) h)) q).

Lemma in_without h q x : In x (without h q) <-> In x q /\ tid x <> h.
Proof.
  rewrite filter_In, negb_true_iff, Nat.eqb_neq. reflexivity.
Qed.

Lemma find_fired h q t :
  List.find (fun t => Nat.eqb (tid t) h) q = Some t -> In t q /\ tid t = h.
Proof.
  intros Hfind. apply find_some in Hfind as [Hin Heq].
  by apply Nat.eqb_eq in Heq.
Qed.

(** Firing a timer that is not of kind [P] keeps the timers of kind [P]. *)
Lemma timer_at_other (P : callback -> bool) q t h :
  NoDup (List.map tid q) -> In t q -> tid t = h -> P (cb t) = false ->
  forall h',
    (exists x, In x q /\ tid x = h' /\ P (cb x) = true)
    <-> (exists x, In x (without h q) /\ tid x = h' /\ P (cb x) = true).
Proof.
  intros Hnd Hin Hid HP h'. split; intros (x & Hx & Hxid & HxP); exists x.
  - split; [| by split]. apply in_without. split; [exact Hx |].
    intros Heq. assert (x = t) by (apply (NoDup_map_inj tid q); congruence).
    congruence.
  - apply in_without in Hx as [Hx _]. by repeat split.
Qed.

(** Firing the timer of kind [P] the guard points at leaves none of that
    kind. *)
Lemma timer_at_fired (P : callback -> bool) (var : option nat) q t h :
  In t q -> tid t = h -> P (cb t) = true ->
  (forall h', var = Some h'
              <-> exists x, In x q /\ tid x = h' /\ P (cb x) = true) ->
  forall h',
    @None nat = Some h'
    <-> exists x, In x (without h q) /\ tid x = h' /\ P (cb x) = true.
Proof.
  intros Hin Hid HP Hvar h'. split; [discriminate |].
  intros (x & Hx & Hxid & HxP). exfalso.
  apply in_without in Hx as [Hx Hne].
  assert (H1 : var = Some (tid x)) by (apply Hvar; by exists x).
  assert (H2 : var = Some h) by (apply Hvar; by exists t).
  congruence.
Qed.

Lemma linked_fire h st st' :
  linked st -> fire h st = Some st' -> linked st'.
Proof.
  unfold fire. destruct st as [sl sp q nx aw lg ck ms]. cbn [queue].
  intros (Hnd & Hlt & Hslack & Hspotify). cbn in Hnd, Hlt, Hslack, Hspotify.
  unfold slack_timer_at, spotify_timer_at in *. cbn [queue] in *.
  destruct (List.find (fun t => Nat.eqb (tid t) h) q) as [t |] eqn:Hfind;
    [| discriminate].
  apply find_fired in Hfind as [Hin Hid].
  intros [= <-].
  assert (Hnd' : NoDup (List.map tid (without h q)))
    by by apply NoDup_map_filter.
  assert (Hlt' : forall x, In x (without h q) -> (tid x < nx)%nat).
  { intros x Hx. apply in_without in Hx as [Hx _]. by apply Hlt. }
  unfold linked, slack_timer_at, spotify_timer_at.
  destruct (cb t) as [n | n |] eqn:Hcb; cbn;
    (split; [exact Hnd' |]); (split; [exact Hlt' |]); split; intros h'.
  - apply (timer_at_fired (fun c => is_slack c) sl q t h); auto.
    by rewrite Hcb.
  - rewrite Hspotify.
    apply (timer_at_other (fun c => is_spotify c) q t h); auto.
    by rewrite Hcb.
  - rewrite Hslack.
    apply (timer_at_other (fun c => is_slack c) q t h); auto.
    by rewrite Hcb.
  - apply (timer_at_fired (fun c => is_spotify c) sp q t h); auto.
    by rewrite Hcb.
  - rewrite Hslack.
    apply (timer_at_other (fun c => is_slack c) q t h); auto.
    by rewrite Hcb.
  - rewrite Hspotify.
    apply (timer_at_other (fun c => is_spotify c) q t h); auto.
    by rewrite Hcb.
Qed.

Lemma linked_set_awaiting a st : linked st -> linked (set_awaiting a st).
Proof. by destruct st. Qed.

Lemma linked_build_timer st :
  linked st -> linked (setTimeout HardRefreshPlaylist 2000 st).2.
Proof.
  destruct st as [sl sp q nx aw lg ck ms].
  unfold linked, slack_timer_at, spotify_timer_at. cbn.
  intros (Hnd & Hlt & Hslack & Hspotify).
  destruct (fresh_handles q nx 2000 HardRefreshPlaylist Hnd Hlt)
    as [Hnd' Hlt'].
  split; [exact Hnd' |]. split; [exact Hlt' |].
  split; intros h; [rewrite Hslack | rewrite Hspotify];
    (split; intros (t & Hin & Hid & Hcb);
     [exists t; split; [apply in_app_iff; by left | by split] |]);
    (apply in_app_iff in Hin as [Hin | [<- | []]];
     [by exists t | discriminate]).
Qed.

Lemma linked_resume i a st st' :
  linked st -> resume i a st = Some st' -> linked st'.
Proof.
  unfold resume. intros Hl.
  destruct (nth_error (awaiting st) i) as [[n | n | |] |],
    a as [oauth | r | loaded];
    try discriminate; intros [= <-].
  - unfold slackConnectStatusHandler.
    destruct oauth; [by destruct st |].
    destruct (0 <? n)%Z;
      [apply linked_refetchSlack |]; by apply linked_set_awaiting.
  - unfold spotifyConnectStatusHandler.
    destruct r as [r |]; [| by apply linked_set_awaiting].
    destruct (negb (UserStatus.loggedOn r)).
    + destruct (0 <? n)%Z;
        [apply linked_refetchSpotify |]; by apply linked_set_awaiting.
    + by destruct st.
  - destruct loaded; by destruct st.
  - destruct loaded; [| by destruct st].
    by apply linked_build_timer, linked_set_awaiting.
Qed.

Lemma reachable_linked st : reachable st -> linked st.
Proof.
  induction 1 as [| e st st' _ IH Hstep]; [exact linked_init |].
  destruct e as [n | n | h | i a]; cbn in Hstep.
  - injection Hstep as <-. by apply linked_refetchSlack.
  - injection Hstep as <-. by apply linked_refetchSpotify.
  - by eapply linked_fire.
  - by eapply linked_resume.
Qed.

Lemma filter_nil_iff {A : Type} (f : A -> bool) (l : list A) :
  List.filter f l = [] <-> forall x, In x l -> f x = false.
Proof.
  split.
  - intros Hnil x Hin. destruct (f x) eqn:Hf; [| reflexivity].
    assert (Hx : In x (List.filter f l)) by by apply filter_In.
    rewrite Hnil in Hx. destruct Hx.
  - intros Hall. destruct (List.filter f l) as [| y more] eqn:Hf;
      [reflexivity |].
    assert (Hy : In y (List.filter f l)) by (rewrite Hf; by left).
    apply filter_In in Hy as [Hy Hfy]. rewrite (Hall y Hy) in Hfy.
    discriminate.
Qed.

(** In every state the module can reach, a guard variable is [null] exactly
    when no timer of its poll is outstanding: a poll that has come to rest
    can be started again, and the handles of the outstanding timers are
    pairwise distinct. *)
Theorem guard_null_iff_no_timer st :
  reachable st ->
  (slackFetchTimeout st = None <-> slack_timers st = [])
  /\ (spotifyFetchTimeout st = None <-> spotify_timers st = [])
  /\ NoDup (List.map tid (queue st)).
Proof.
  intros Hreach.
  destruct (reachable_guarded st Hreach) as [[_ Hn1] [_ Hn2]].
  destruct (reachable_linked st Hreach) as (Hnd & _ & Hslack & Hspotify).
  unfold slack_timers, spotify_timers, slack_timer_at, spotify_timer_at in *.
  split; [| split; [| exact Hnd]].
  - split; [exact Hn1 |]. intros Hnil.
    destruct (slackFetchTimeout st) as [h |]; [| reflexivity].
    destruct (proj1 (Hslack h) eq_refl) as (t & Hin & _ & Hcb).
    rewrite (proj1 (filter_nil_iff _ _) Hnil t Hin) in Hcb. discriminate.
  - split; [exact Hn2 |]. intros Hnil.
    destruct (spotifyFetchTimeout st) as [h |]; [| reflexivity].
    destruct (proj1 (Hspotify h) eq_refl) as (t & Hin & _ & Hcb).
    rewrite (proj1 (filter_nil_iff _ _) Hnil t Hin) in Hcb. discriminate.
Qed.

(** One round on a state whose only timer is a slack tick and where no
    handler is suspended. *)
Lemma unmet_round_slack sl sp h d n nx lg ck ms :
  unmet_round (mkState sl sp [mkTimer h d (SlackTick n)] nx [] lg ck ms)
  = Some (if (0 <? n)%Z
          then mkState (Some nx) sp
                 [mkTimer nx 10000 (SlackTick (n - 1))] (S nx) []
                 (lg ++ [(10000%Z, SlackTick (n - 1))])
                 (ck ++ [SlackHandler n]) ms
          else mkState None sp [] nx [] lg (ck ++ [SlackHandler n]) ms).
Proof.
  unfold unmet_round, fire. simpl. rewrite Nat.eqb_refl. simpl.
  unfold resume, remove_nth, set_awaiting. simpl.
  unfold refetchSlackConnectStatusLazily. simpl.
  by destruct (0 <? n)%Z.
Qed.

Lemma run_unmet_slack (k : nat) :
  forall n sl sp h d nx lg ck ms fuel,
    Z.to_nat n = k ->
    (k < fuel)%nat ->
    run_unmet fuel
      (mkState sl sp [mkTimer h d (SlackTick n)] nx [] lg ck ms)
    = Some (mkState None sp [] (nx + k) []
              (lg ++ List.map (fun c => (10000%Z, SlackTick c)) (countdown n))
              (ck ++ List.map SlackHandler (n :: countdown n)) ms).
Proof.
  induction k as [| k IH]; intros n sl sp h d nx lg ck ms fuel Hk Hfuel;
    (destruct fuel as [| fuel]; [lia |]);
    cbn [run_unmet queue]; rewrite unmet_round_slack.
  - assert (Hn : (0 <? n)%Z = false) by (apply Z.ltb_ge; lia).
    rewrite Hn, countdown_nonpos by lia. simpl.
    rewrite app_nil_r, Nat.add_0_r. destruct fuel; reflexivity.
  - assert (Hn : (0 <? n)%Z = true) by (apply Z.ltb_lt; lia).
    rewrite Hn, (IH (n - 1)%Z) by lia.
    rewrite (countdown_pos n) by lia. cbn [List.map].
    rewrite <- !app_assoc. cbn [app].
    replace (S nx + k)%nat with (nx + S k)%nat by lia. reflexivity.
Qed.

(** A slack connection poll started with the count [n] and never connected
    comes to rest after [Z.to_nat n + 1] checks, with the counts [n], [n-1],
    ..., [0]; the handler sets a timer again [Z.to_nat n] times, shows no
    message, and leaves no timer, no suspended handler and a [null] guard. *)
Theorem slack_poll_terminates (n : Z) (fuel : nat) :
  (Z.to_nat n < fuel)%nat ->
  exists st',
    run_unmet fuel (refetchSlackConnectStatusLazily n init) = Some st'
    /\ checks st' = List.map SlackHandler (n :: countdown n)
    /\ set_log st'
       = (10000%Z, SlackTick n)
         :: List.map (fun c => (10000%Z, SlackTick c)) (countdown n)
    /\ length (countdown n) = Z.to_nat n
    /\ messages st' = []
    /\ queue st' = [] /\ awaiting st' = [] /\ slackFetchTimeout st' = None.
Proof.
  intros Hfuel. eexists. split.
  - unfold refetchSlackConnectStatusLazily, init. simpl.
    unfold set_slackFetchTimeout. simpl.
    by apply (run_unmet_slack (Z.to_nat n)).
  - simpl. repeat split; auto using countdown_length.
Qed.

(** One round answered "not connected". *)
Lemma spotify_round_not_connected s sl sp h d n nx lg ck ms :
  spotify_round (not_connected s)
    (mkState sl sp [mkTimer h d (SpotifyTick n)] nx [] lg ck ms)
  = Some (if (0 <? n)%Z
          then mkState sl (Some nx)
                 [mkTimer nx 10000 (SpotifyTick (n - 1))] (S nx) []
                 (lg ++ [(10000%Z, SpotifyTick (n - 1))])
                 (ck ++ [SpotifyHandler n]) ms
          else mkState sl None [] nx [] lg (ck ++ [SpotifyHandler n]) ms).
Proof.
  unfold spotify_round, fire. simpl. rewrite Nat.eqb_refl. simpl.
  unfold resume, remove_nth, set_awaiting. simpl.
  unfold refetchSpotifyConnectStatusLazily. simpl.
  by destruct (0 <? n)%Z.
Qed.

(** One round answered "connected". *)
Lemma spotify_round_connected r sl sp h d n nx lg ck ms :
  UserStatus.loggedOn r = true ->
  spotify_round (Returned r)
    (mkState sl sp [mkTimer h d (SpotifyTick n)] nx [] lg ck ms)
  = Some (mkState sl None [] nx [SpotifyUserLoad] lg
            (ck ++ [SpotifyHandler n])
            (ms ++ ["Successfully connected to Spotify. Loading playlists..."])).
Proof.
  intros Hon.
  unfold spotify_round, fire. simpl. rewrite Nat.eqb_refl. simpl.
  unfold resume, remove_nth, set_awaiting. simpl. by rewrite Hon.
Qed.

(** One round in which the status call raised. *)
Lemma spotify_round_threw e sl sp h d n nx lg ck ms :
  spotify_round (Threw e)
    (mkState sl sp [mkTimer h d (SpotifyTick n)] nx [] lg ck ms)
  = Some (mkState sl None [] nx [] lg (ck ++ [SpotifyHandler n]) ms).
Proof.
  unfold spotify_round, fire. simpl. by rewrite Nat.eqb_refl.
Qed.

(** The counts of the first [k] checks of a poll started with [n]. *)
Local Abbreviation first_checks n k :=
  (List.map (fun i => SpotifyHandler (n - Z.of_nat i)%Z) (seq 0 k)).

(** [k] rounds answered "not connected", while the count lasts: one timer
    is outstanding again, with the count decreased by [k]. *)
Lemma spotify_rounds_not_connected (ss : list string) :
  forall more n sl sp h d nx lg ck ms,
    (length ss <= Z.to_nat n)%nat ->
    exists sp' h' d' nx' lg',
      spotify_rounds (List.map not_connected ss ++ more)
        (mkState sl sp [mkTimer h d (SpotifyTick n)] nx [] lg ck ms)
      = spotify_rounds more
          (mkState sl sp'
             [mkTimer h' d' (SpotifyTick (n - Z.of_nat (length ss)))] nx' []
             lg' (ck ++ first_checks n (length ss)) ms).
Proof.
  induction ss as [| s ss IH]; intros more n sl sp h d nx lg ck ms Hlen;
    cbn [length List.map app spotify_rounds seq].
  - exists sp, h, d, nx, lg. by rewrite Z.sub_0_r, app_nil_r.
  - cbn [length] in Hlen.
    rewrite spotify_round_not_connected.
    assert (Hn : (0 <? n)%Z = true) by (apply Z.ltb_lt; lia).
    rewrite Hn.
    destruct (IH more (n - 1)%Z sl (Some nx) nx 10000%Z (S nx)
                (lg ++ [(10000%Z, SpotifyTick (n - 1))])
                (ck ++ [SpotifyHandler n]) ms ltac:(lia))
      as (sp' & h' & d' & nx' & lg' & ->).
    exists sp', h', d', nx', lg'.
    replace (n - 1 - Z.of_nat (length ss))%Z
      with (n - Z.of_nat (S (length ss)))%Z by lia.
    rewrite <- app_assoc. cbn [app].
    rewrite <- seq_shift, List.map_map, Z.sub_0_r.
    do 4 f_equal. apply List.map_ext. intros i. f_equal. lia.
Qed.

(** A spotify poll started with the count [n] that is told "not connected"
    [k] times, [k] within the count, and "connected" at the next check sets
    no timer of its own again: it has made [k + 1] checks, has shown the
    connected message once, has left the guard [null], and waits for the
    user to load.  When that load and the load of the liked songs both
    complete, its one outstanding timer is the playlist build due after
    2000 ms; when either raises, the handler ends there, with the message
    shown and no timer set. *)
Theorem spotify_poll_connects (ss : list string) (r : UserStatus.Status)
  (n : Z) :
  (length ss <= Z.to_nat n)%nat ->
  UserStatus.loggedOn r = true ->
  exists st1,
    spotify_rounds (List.map not_connected ss ++ [Returned r])
      (refetchSpotifyConnectStatusLazily n init) = Some st1
    /\ checks st1 = first_checks n (S (length ss))
    /\ messages st1
       = ["Successfully connected to Spotify. Loading playlists..."]
    /\ queue st1 = []
    /\ spotifyFetchTimeout st1 = None
    /\ awaiting st1 = [SpotifyUserLoad]
    /\ (exists st3 h,
          spotify_loads [Returned tt; Returned tt] st1 = Some st3
          /\ queue st3 = [mkTimer h 2000 HardRefreshPlaylist]
          /\ spotify_timers st3 = []
          /\ awaiting st3 = []
          /\ messages st3 = messages st1)
    /\ (forall e, exists st2,
          spotify_loads [Threw e] st1 = Some st2
          /\ queue st2 = [] /\ awaiting st2 = []
          /\ messages st2 = messages st1)
    /\ (forall e, exists st3,
          spotify_loads [Returned tt; Threw e] st1 = Some st3
          /\ queue st3 = [] /\ awaiting st3 = []
          /\ messages st3 = messages st1).
Proof.
  intros Hlen Hon.
  rewrite seq_S, List.map_app. cbn [List.map Nat.add].
  unfold refetchSpotifyConnectStatusLazily, init. cbn.
  unfold set_spotifyFetchTimeout. cbn.
  destruct (spotify_rounds_not_connected ss [Returned r] n None (Some 0%nat)
              0%nat 10000%Z 1%nat [(10000%Z, SpotifyTick n)] [] [] Hlen)
    as (sp' & h' & d' & nx' & lg' & ->).
  cbn [spotify_rounds]. rewrite spotify_round_connected by exact Hon.
  eexists. split; [reflexivity |].
  cbn [checks messages queue spotifyFetchTimeout awaiting app].
  split; [reflexivity |]. split; [reflexivity |]. split; [reflexivity |].
  split; [reflexivity |]. split; [reflexivity |].
  split; [| split]; [eexists; exists nx' | intros e; eexists ..];
    (split; [reflexivity | by repeat split]).
Qed.

(** A status call that raises ends the spotify poll at once.  When the
    response is successful with state ["OK"] and no user, at a check within
    the count, the handler sets no timer again although attempts remain, and
    shows no message: the poll has come to rest, with the guard [null]. *)
Theorem spotify_poll_ends_when_status_raises
  (isResponseOk : UserStatus.Response -> bool) resp d w
  (ss : list string) (n : Z) :
  UserStatus.token_available w = true ->
  isResponseOk resp = true ->
  UserStatus.data resp = Some d ->
  UserStatus.body_state d = Some "OK" ->
  UserStatus.body_user d = None ->
  (length ss <= Z.to_nat n)%nat ->
  exists st',
    spotify_rounds
      (List.map not_connected ss
       ++ [(UserStatus.getMusicTimeUserStatus isResponseOk resp w).1])
      (refetchSpotifyConnectStatusLazily n init) = Some st'
    /\ checks st' = first_checks n (S (length ss))
    /\ messages st' = []
    /\ queue st' = []
    /\ awaiting st' = []
    /\ spotifyFetchTimeout st' = None.
Proof.
  intros Htok Hok Hdata Hstate Huser Hlen.
  rewrite seq_S, List.map_app. cbn [List.map Nat.add].
  rewrite (getMusicTimeUserStatus_result isResponseOk resp d w Htok Hok Hdata).
  assert (Hc : String.eqb (UserStatus.classify d) "OK" = true)
    by by apply classify_ok.
  rewrite Hc, Huser.
  unfold refetchSpotifyConnectStatusLazily, init. cbn.
  unfold set_spotifyFetchTimeout. cbn.
  match goal with
  | |- context [List.map not_connected ss ++ ?more] =>
      destruct (spotify_rounds_not_connected ss more n None (Some 0%nat)
                  0%nat 10000%Z 1%nat [(10000%Z, SpotifyTick n)] [] [] Hlen)
        as (sp' & h' & d' & nx' & lg' & ->)
  end.
  cbn [spotify_rounds]. rewrite spotify_round_threw.
  eexists. split; [reflexivity |].
  cbn [checks messages queue spotifyFetchTimeout awaiting app].
  split; [reflexivity | by repeat split].
Qed.

(** The guard only looks at the timer, not at a handler still waiting for
    its answer.  An entry made while a handler waits sets a timer with the
    caller's count [m]; when the handler is then told "not connected", its own
    timer with [n - 1] is not set: the poll goes on with [m], whatever was
    left of [n]. *)
Theorem entry_while_handler_waits_replaces_count st i n m s :
  spotifyFetchTimeout st = None ->
  nth_error (awaiting st) i = Some (SpotifyHandler n) ->
  exists st',
    resume i (SpotifyAnswer (not_connected s))
      (refetchSpotifyConnectStatusLazily m st) = Some st'
    /\ queue st' = queue st ++ [mkTimer (next_tid st) 10000 (SpotifyTick m)]
    /\ set_log st' = set_log st ++ [(10000%Z, SpotifyTick m)]
    /\ spotifyFetchTimeout st' = Some (next_tid st).
Proof.
  intros Hnull Hwait.
  destruct st as [sl sp q nx aw lg ck ms]. cbn in Hnull, Hwait. subst sp.
  unfold refetchSpotifyConnectStatusLazily, resume. cbn.
  rewrite Hwait. cbn.
  eexists. split; [reflexivity |].
  unfold refetchSpotifyConnectStatusLazily.
  destruct (0 <? n)%Z; cbn; by repeat split.
Qed.

End PollingRunFacts.

Lemma guard_null_iff_no_timer_witness :
  exists st,
    Polling.fire 0 (Polling.refetchSpotifyConnectStatusLazily 0 Polling.init)
    = Some st
    /\ (Polling.spotifyFetchTimeout st = None
        <-> Polling.spotify_timers st = [])
    /\ Polling.spotifyFetchTimeout st = None.
Proof.
  eexists. split; [reflexivity |].
  split; [| reflexivity].
  apply guard_null_iff_no_timer.
  apply (Polling.reach_step (Polling.Fire 0)
           (Polling.refetchSpotifyConnectStatusLazily 0 Polling.init));
    [| reflexivity].
  apply (Polling.reach_step (Polling.CallSpotify 0) Polling.init);
    [apply Polling.reach_init | reflexivity].
Defined.

Lemma slack_poll_terminates_witness :
  exists st',
    Polling.run_unmet 41
      (Polling.refetchSlackConnectStatusLazily 40 Polling.init) = Some st'
    /\ length (Polling.checks st') = 41%nat
    /\ length (Polling.set_log st') = 41%nat
    /\ Polling.queue st' = [].
Proof.
  destruct (slack_poll_terminates 40 41)
    as (st' & Hrun & Hchecks & Hlog & _ & _ & Hq & _); [simpl; lia |].
  exists st'. split; [exact Hrun |].
  rewrite Hchecks, Hlog.
  split; [reflexivity |]. split; [reflexivity | exact Hq].
Defined.

(** Connected at the third check; then the user load raises. *)
Lemma spotify_poll_connects_witness :
  exists st1 st2,
    PollingRuns.spotify_rounds
      [PollingRuns.not_connected "UNKNOWN"; PollingRuns.not_connected "OK";
       Js.Returned (UserStatus.mkStatus true "OK")]
      (Polling.refetchSpotifyConnectStatusLazily 40 Polling.init) = Some st1
    /\ length (Polling.checks st1) = 3%nat
    /\ PollingRuns.spotify_loads [Js.Threw "no profile"] st1 = Some st2
    /\ Polling.queue st2 = []
    /\ length (Polling.messages st2) = 1%nat.
Proof.
  destruct (spotify_poll_connects ["UNKNOWN"; "OK"]
              (UserStatus.mkStatus true "OK") 40)
    as (st1 & Hrun & Hchecks & Hmsg & _ & _ & _ & _ & Hraise & _);
    [simpl; lia | reflexivity |].
  destruct (Hraise "no profile") as (st2 & Hload & Hq & _ & Hmsg2).
  exists st1, st2. split; [exact Hrun |].
  rewrite Hchecks, Hmsg2, Hmsg. by repeat split.
Defined.

Lemma spotify_poll_ends_when_status_raises_witness :
  let ok := fun r => (UserStatus.status r <? 300)%Z in
  let w := UserStatus.mkWorld {[ "jwt" := Js.VStr "jwt-1" ]} [] [] [] in
  let d := UserStatus.mkBody (Some "OK") None None None in
  exists st',
    PollingRuns.spotify_rounds
      [(UserStatus.getMusicTimeUserStatus ok
          (UserStatus.mkResponse 200 (Some d)) w).1]
      (Polling.refetchSpotifyConnectStatusLazily 40 Polling.init) = Some st'
    /\ Polling.queue st' = []
    /\ Polling.messages st' = [].
Proof.
  intros ok w d.
  destruct (spotify_poll_ends_when_status_raises ok
              (UserStatus.mkResponse 200 (Some d)) d w [] 40)
    as (st' & Hrun & _ & Hmsg & Hq & _);
    try reflexivity; [simpl; lia |].
  exists st'. by repeat split.
Defined.

(** A handler called with the count 5 waits for its answer when a caller
    enters with 40: told "not connected", the handler would set a timer with
    4, but the one timer outstanding afterwards carries 40. *)
Lemma entry_while_handler_waits_replaces_count_witness :
  let st := Polling.mkState None None [] 1 [Polling.SpotifyHandler 5] [] [] [] in
  exists st',
    Polling.resume 0
      (Polling.SpotifyAnswer (PollingRuns.not_connected "UNKNOWN"))
      (Polling.refetchSpotifyConnectStatusLazily 40 st) = Some st'
    /\ Polling.queue st' = [Polling.mkTimer 1 10000 (Polling.SpotifyTick 40)]
    /\ Polling.set_log st' = [(10000%Z, Polling.SpotifyTick 40)].
Proof.
  intros st.
  destruct (entry_while_handler_waits_replaces_count st 0 5 40 "UNKNOWN")
    as (st' & Hrun & Hq & Hlog & _); [reflexivity | reflexivity |].
  exists st'. split; [exact Hrun |]. split; [exact Hq | exact Hlog].
Defined.

(** ** The session times of the liked songs *)

Section LikedSongTimesFacts.
Import Js LikedSongTimes.

Lemma stamp_all_nth offset_sec (l : list Track) :
  forall startingTime i t,
    nth_error l i = Some t ->
    nth_error (stamp_all offset_sec startingTime l) i
    = Some (stamp offset_sec (startingTime - 61 * Z.of_nat i) t).1.
Proof.
  induction l as [| a l IH]; intros T i t; [by destruct i |].
  destruct i as [| i]; cbn [nth_error stamp_all stamp].
  - intros [= ->]. by rewrite Z.mul_0_r, Z.sub_0_r.
  - intros Hi. rewrite (IH _ i t Hi). do 3 f_equal. lia.
Qed.

Lemma stamp_all_length offset_sec (l : list Track) :
  forall startingTime,
    length (stamp_all offset_sec startingTime l) = length l.
Proof.
  induction l as [| a l IH]; intros T; cbn [stamp_all stamp length];
    [reflexivity | by rewrite IH].
Qed.

(** The [i]-th liked song, counting from 0, is given the start
    [startingTime - 61 * i], an end 60 seconds before its start, the duration
    60, local times shifted by the offset, the playlist ["Liked Songs"] and
    the loved flag; its id becomes its uri when it has one.  No song is added
    or dropped. *)
Theorem stamp_all_times offset_sec startingTime (l : list Track) i t :
  nth_error l i = Some t ->
  exists t',
    nth_error (stamp_all offset_sec startingTime l) i = Some t'
    /\ start t' = (startingTime - 61 * Z.of_nat i)%Z
    /\ end_ t' = (start t' - 60)%Z
    /\ duration t' = 60%Z
    /\ local_start t' = (start t' - offset_sec)%Z
    /\ local_end t' = (end_ t' - offset_sec)%Z
    /\ id t' = (if truthy_str (uri t) then default "" (uri t) else id t)
    /\ playlistId t' = Some "Liked Songs"
    /\ loved t' = true
    /\ length (stamp_all offset_sec startingTime l) = length l.
Proof.
  intros Hi. eexists. split; [by apply stamp_all_nth |].
  cbn. repeat split. apply stamp_all_length.
Qed.

(** The sessions run backwards and never overlap: every song ends before it
    starts, and a song later in the list starts before the song ahead of it
    ends, one second apart for neighbours. *)
Theorem stamp_all_windows offset_sec startingTime (l : list Track) i j a b :
  (i < j)%nat ->
  nth_error (stamp_all offset_sec startingTime l) i = Some a ->
  nth_error (stamp_all offset_sec startingTime l) j = Some b ->
  (end_ a < start a)%Z
  /\ (start b < end_ a)%Z
  /\ (j = S i -> start b = end_ a - 1)%Z.
Proof.
  intros Hij Ha Hb.
  assert (Hlen := stamp_all_length offset_sec l startingTime).
  destruct (nth_error l i) as [ta |] eqn:Hta.
  2: { apply nth_error_None in Hta.
       assert (nth_error (stamp_all offset_sec startingTime l) i = None)
         by (apply nth_error_None; lia).
       congruence. }
  destruct (nth_error l j) as [tb |] eqn:Htb.
  2: { apply nth_error_None in Htb.
       assert (nth_error (stamp_all offset_sec startingTime l) j = None)
         by (apply nth_error_None; lia).
       congruence. }
  rewrite (stamp_all_nth _ _ _ _ _ Hta) in Ha.
  rewrite (stamp_all_nth _ _ _ _ _ Htb) in Hb.
  injection Ha as <-. injection Hb as <-. cbn.
  repeat split; intros; lia.
Qed.

End LikedSongTimesFacts.

(** ** Hour changes, the logging toggle and the song payload *)

Section TelemetryFacts.
Import Js Telemetry.

(** Calls made within one hour: only the first can answer [true], and it
    does unless the hour stored is already that hour. *)
Theorem isNewHour_once_per_hour (dayHr : string) (n : nat)
  (currentDayHour : option string) :
  dayHr <> "" ->
  isNewHour_calls (repeat dayHr (S n)) currentDayHour
  = negb (UserStatus.str_is currentDayHour dayHr) :: repeat false n
  /\ (isNewHour dayHr currentDayHour).2 = Some dayHr.
Proof.
  intros Hne.
  assert (Hd : String.eqb dayHr "" = false) by by apply String.eqb_neq.
  assert (Hsame : forall m, isNewHour_calls (repeat dayHr m) (Some dayHr)
                            = repeat false m).
  { induction m as [| m IH]; [reflexivity |].
    cbn [repeat isNewHour_calls]. unfold isNewHour. cbn [truthy_str].
    rewrite Hd, String.eqb_refl. cbn. by rewrite IH. }
  assert (Hvar : (isNewHour dayHr currentDayHour).2 = Some dayHr).
  { unfold isNewHour. destruct currentDayHour as [c |]; [| reflexivity].
    cbn [truthy_str]. destruct (String.eqb dayHr c) eqn:Hc.
    - apply String.eqb_eq in Hc. subst c. by rewrite Hd.
    - by rewrite orb_true_r. }
  split; [| exact Hvar].
  cbn [repeat isNewHour_calls].
  destruct (isNewHour dayHr currentDayHour) as [b c] eqn:Hcall.
  cbn in Hvar. subst c. rewrite Hsame. f_equal.
  unfold isNewHour in Hcall. unfold UserStatus.str_is.
  destruct currentDayHour as [c |]; [| by injection Hcall as <-].
  cbn [truthy_str] in Hcall. rewrite (String.eqb_sym c dayHr).
  destruct (String.eqb dayHr c) eqn:Hc.
  - apply String.eqb_eq in Hc. subst c. rewrite Hd in Hcall.
    by injection Hcall as <-.
  - rewrite orb_true_r in Hcall. by injection Hcall as <-.
Qed.

(** The toggle is read from the configuration until a value other than
    [null] comes back, and that value is returned from then on: the [k]-th
    call returns the first non-null value among the variable and the
    configured values seen up to that call. *)
Theorem toggle_sticks (configured : list jsval) :
  forall (toggle : jsval) (k : nat) (r : jsval),
    nth_error (toggle_calls configured toggle) k = Some r ->
    r = first_non_null (toggle :: firstn (S k) configured).
Proof.
  induction configured as [| c more IH]; intros toggle k r;
    [by destruct k |].
  cbn [toggle_calls getToggleFileEventLoggingState].
  destruct k as [| k]; cbn [nth_error].
  - intros [= <-]. by destruct toggle, c.
  - intros Hk. apply IH in Hk. rewrite Hk.
    change (firstn (S (S k)) (c :: more)) with (c :: firstn (S k) more).
    cbn [first_non_null].
    destruct (is_null toggle) eqn:Ht; [reflexivity |]. by rewrite Ht.
Qed.

Lemma drop_if_truthy_same k o :
  truthy_field (drop_if_truthy k o !! k) = false
  /\ (truthy_field (o !! k) = false -> drop_if_truthy k o = o).
Proof.
  unfold drop_if_truthy.
  destruct (truthy_field (o !! k)) eqn:Hk; [| by split].
  rewrite lookup_delete_eq. by split.
Qed.

Lemma drop_if_truthy_other k k' o :
  k <> k' -> drop_if_truthy k o !! k' = o !! k'.
Proof.
  intros Hne. unfold drop_if_truthy.
  destruct (truthy_field (o !! k)); [by rewrite lookup_delete_ne | done].
Qed.

(** [sendMusicData] posts the track object once, to [/music/session], after
    removing [available_markets], [images], [external_urls] and [href] where
    they are truthy; a falsy value under one of these keys stays, and every
    other field is sent as it came. *)
Theorem sendMusicData_strips (trackData : gmap string field)
  (sent : list Request) :
  let r := sendMusicData trackData sent in
  r.2 = sent ++ [mkRequest "POST" "/music/session" r.1]
  /\ (forall k, In k dropped_keys ->
                truthy_field (r.1 !! k) = false
                /\ (truthy_field (trackData !! k) = false ->
                    r.1 !! k = trackData !! k))
  /\ (forall k, ~ In k dropped_keys -> r.1 !! k = trackData !! k).
Proof.
  cbv zeta. unfold sendMusicData, sendSessionPayload, dropped_keys.
  cbn [fst snd]. split; [reflexivity |]. split.
  - intros k Hin.
    assert (Hfalsy : forall k' o, truthy_field (o !! k) = false ->
                       truthy_field (drop_if_truthy k' o !! k) = false).
    { intros k' o Ho. destruct (decide (k' = k)) as [-> | Hne].
      - apply drop_if_truthy_same.
      - by rewrite drop_if_truthy_other. }
    assert (Hkeep : forall k' o, truthy_field (o !! k) = false ->
                      drop_if_truthy k' o !! k = o !! k).
    { intros k' o Ho. destruct (decide (k' = k)) as [-> | Hne].
      - by rewrite (proj2 (drop_if_truthy_same k o) Ho).
      - by rewrite drop_if_truthy_other. }
    split.
    + cbn [In] in Hin.
      destruct Hin as [<- | [<- | [<- | [<- | []]]]];
        repeat first [apply drop_if_truthy_same | apply Hfalsy].
    + intros Ht. rewrite !Hkeep; auto.
  - intros k Hnot. cbn [In] in Hnot.
    rewrite !drop_if_truthy_other; [reflexivity | tauto ..].
Qed.

End TelemetryFacts.

(** ** The first refresh of the playlist tree *)

Section TreeViewFacts.
Import Js TreeView.

Variable refreshPlaylists :
  list Playback.PlaylistItem -> list Playback.PlaylistItem.
Variable getLoadingButton : Playback.PlaylistItem.

Local Abbreviation step := (TreeView.step refreshPlaylists getLoadingButton).
Local Abbreviation run := (TreeView.run refreshPlaylists getLoadingButton).

Lemma refreshed_once_step e st : refreshed_once st -> refreshed_once (step e st).
Proof.
  unfold refreshed_once. intros [Hle Hzero].
  destruct e as [visible | element tracks]; cbn [TreeView.step].
  - unfold onDidChangeVisibility.
    destruct visible; cbv iota; [| by split].
    destruct (initializedPlaylist st) eqn:Hinit; cbn [negb]; cbv iota;
      [split; [exact Hle | congruence] |].
    unfold refreshes in *. cbn [executed initializedPlaylist].
    rewrite List.filter_app, length_app, (Hzero eq_refl). cbn.
    split; [lia | discriminate].
  - unfold getChildren.
    destruct (ready st); cbv iota; [| by split].
    destruct element; cbv iota; [by split |]. cbn [snd].
    destruct (length (currentPlaylists st) =? 0)%nat; cbv iota;
      unfold refreshes in *; cbn [executed initializedPlaylist];
      split; (lia || done || auto).
Qed.


End TreeViewFacts.


(** ** The playlist fetch when it succeeds and when it raises *)

Section PlaylistsMoreFacts.
Import Js Playlists.

Variable Rest : Type.
Variable reconcilePlaylists : DataMgr Rest -> DataMgr Rest.
Variable fetchSavedPlaylists : DataMgr Rest -> DataMgr Rest.
Variable populateGeneratedPlaylists : DataMgr Rest -> DataMgr Rest.

Local Abbreviation populateSpotifyPlaylists :=
  (Playlists.populateSpotifyPlaylists Rest reconcilePlaylists
     fetchSavedPlaylists populateGeneratedPlaylists).
Local Abbreviation at_fetch :=
  (Playlists.at_fetch Rest reconcilePlaylists fetchSavedPlaylists).

(** When the fetch answers with an array, the call returns without setting
    a retry; the array, be it empty, is handed to the generated-playlist
    step as both raw orderings, and where that step leaves them alone both
    raw orderings are the array after the call. *)
Theorem populateSpotifyPlaylists_stores_array devices l ctx w :
  let r := populateSpotifyPlaylists devices (Items l) ctx w in
  r.1 = Returned tt
  /\ timers r.2 = timers w ++ device_timer devices
  /\ retries r.2 = retries w
  /\ dataMgr r.2
     = set_spotifyContext Rest ctx
         (populateGeneratedPlaylists
            (set_raw Rest l (at_fetch devices (dataMgr w))))
  /\ controls r.2 = controls w ++ [false]
  /\ (keeps_raw populateGeneratedPlaylists ->
      rawPlaylists (dataMgr r.2) = l
      /\ origRawPlaylistOrder (dataMgr r.2) = l).
Proof.
  cbv zeta. unfold Playlists.populateSpotifyPlaylists.
  rewrite before_fetch.
  cbn -[at_fetch device_timer].
  split; [reflexivity |]. split; [reflexivity |]. split.
  { unfold retries. cbn -[device_timer].
    rewrite !List.filter_app, !length_app.
    unfold device_timer. destruct (is_rate_limited devices); simpl; lia. }
  split; [reflexivity |]. split; [reflexivity |].
  intros Hgenerated.
  by destruct (Hgenerated (set_raw Rest l (at_fetch devices (dataMgr w))))
    as [-> ->].
Qed.

(** The call raises exactly when the fetch answers with nothing or with an
    object whose status is 0 or below 400.  The generated playlists and the
    player context are then not populated, while the raw orderings have
    already been emptied and the device step has already run. *)
Theorem populateSpotifyPlaylists_raises_iff devices fetchedPlaylists ctx w :
  let r := populateSpotifyPlaylists devices fetchedPlaylists ctx w in
  (returned r.1 = false
   <-> fetchedPlaylists = Nothing
       \/ exists s, fetchedPlaylists = StatusOnly s /\ (s < 400)%Z)
  /\ (returned r.1 = false ->
      dataMgr r.2 = at_fetch devices (dataMgr w)
      /\ controls r.2 = controls w
      /\ timers r.2 = timers w ++ device_timer devices).
Proof.
  cbv zeta. unfold Playlists.populateSpotifyPlaylists.
  rewrite before_fetch.
  destruct fetchedPlaylists as [l | s |]; cbn -[at_fetch device_timer].
  - split; [| discriminate].
    split; [discriminate | intros [? | (s & ? & _)]; discriminate].
  - destruct (negb (s =? 0)%Z && (400 <=? s)%Z) eqn:Herr;
      cbn -[at_fetch device_timer].
    + apply andb_true_iff in Herr as [_ Hge]. apply Z.leb_le in Hge.
      split; [| discriminate].
      split; [discriminate |].
      intros [? | (s' & [= <-] & Hlt)]; [discriminate | lia].
    + split; [| by repeat split].
      split; [| reflexivity]. intros _. right. exists s.
      split; [reflexivity |].
      apply andb_false_iff in Herr as [Hz | Hlt].
      * apply negb_false_iff, Z.eqb_eq in Hz. lia.
      * apply Z.leb_gt in Hlt. lia.
  - split; [| by repeat split].
    split; [by left | reflexivity].
Qed.

End PlaylistsMoreFacts.

(** ** Play requests: selection, launch and routing *)

Section PlaybackMoreFacts.
Import Js Playback.

Variable SPOTIFY_LIKED_SONGS_PLAYLIST_NAME : string.
Variable PLAYLISTS_PROVIDER : string.

Local Abbreviation playSelectedItem :=
  (Playback.playSelectedItem SPOTIFY_LIKED_SONGS_PLAYLIST_NAME
     PLAYLISTS_PROVIDER).

(** Case analysis over every branch of [playSelectedItem] and its helpers. *)
Ltac branches :=
  repeat match goal with
         | |- context [match ?x with _ => _ end] =>
             lazymatch x with
             | context [match _ with _ => _ end] => fail
             | _ => destruct x eqn:?
             end;
             cbn -[String.eqb] in *; try discriminate; try congruence
         end.

Ltac open_request st info :=
  destruct st as [selTrack selPlaylist provider cmds tms ctl];
  destruct info as [proceed_ launching player];
  unfold Playback.playSelectedItem, refresh_if_launching, now_or_after_launch,
    detached, playItunesSelectedPlaylist, playSpotifyDesktopPlaylistTrack,
    launchAndPlaySpotifyWebPlaylistTrack, empty_playlist_request in *;
  cbn -[String.eqb] in *.

(** With no backend being launched the call sets no timer at all and issues
    at most one play command, whatever the item and however the call ends. *)
Theorem play_without_launch_sets_no_timer
  playlistItem isExpand launchConfirmInfo playlistById tracks st :
  isLaunching launchConfirmInfo = false ->
  let r := playSelectedItem playlistItem isExpand launchConfirmInfo
             playlistById tracks st in
  timers r.2 = timers st
  /\ (length (commands r.2) <= S (length (commands st)))%nat.
Proof.
  intros Hl. open_request st launchConfirmInfo. subst launching.
  branches; rewrite ?length_app; cbn;
    (split; [reflexivity | lia]).
Qed.

(** While a backend is being launched a confirmed play request issues no
    command at once, unless it is for an iTunes track: it sets the play as a
    timer with the 4000 ms launch delay, followed by the list refresh with
    the same delay. *)
Theorem play_waits_for_launch
  playlistItem isExpand launchConfirmInfo playlistById tracks st :
  proceed launchConfirmInfo = true ->
  isLaunching launchConfirmInfo = true ->
  String.eqb (item_type playlistItem) "track"
  && PlayerType_eqb (playerType playlistItem) MacItunesDesktop = false ->
  String.eqb (item_type playlistItem) "track" || negb isExpand = true ->
  empty_playlist_request playlistItem isExpand tracks = false ->
  let r := playSelectedItem playlistItem isExpand launchConfirmInfo
             playlistById tracks st in
  r.1 = Returned tt
  /\ commands r.2 = commands st
  /\ exists d,
       deferred_eqb d DeferRefreshPlaylist = false
       /\ timers r.2
          = timers st
            ++ [(launchTimeout, d); (launchTimeout, DeferRefreshPlaylist)].
Proof.
  intros Hp Hl Hnot Hplay Hreq.
  open_request st launchConfirmInfo. subst proceed_ launching.
  branches; rewrite <- ?app_assoc; cbn;
    (split; [reflexivity |]); (split; [reflexivity |]);
    eexists; (split; [| reflexivity]); reflexivity.
Qed.

(** An iTunes track is played at once also while a backend is being
    launched: the command goes out with the selected playlist's name and the
    track's position (1 when it has none or it is 0), and only the list
    refresh is set as a timer. *)
Theorem itunes_track_plays_without_waiting
  playlistItem isExpand launchConfirmInfo playlistById tracks st p :
  proceed launchConfirmInfo = true ->
  isLaunching launchConfirmInfo = true ->
  String.eqb (item_type playlistItem) "track" = true ->
  playerType playlistItem = MacItunesDesktop ->
  selectedPlaylist st = Some p ->
  let r := playSelectedItem playlistItem isExpand launchConfirmInfo
             playlistById tracks st in
  let pos := match position playlistItem with
             | Some z => if (z =? 0)%Z then 1%Z else z
             | None => 1%Z
             end in
  commands r.2
  = commands st ++ [PlayItunesTrackNumberInPlaylist (item_name p) pos]
  /\ timers r.2 = timers st ++ [(launchTimeout, DeferRefreshPlaylist)].
Proof.
  intros Hp Hl Htype Hpt Hsel.
  open_request st launchConfirmInfo. subst proceed_ launching selPlaylist.
  rewrite Htype, Hpt. cbn.
  destruct (position playlistItem) as [z |]; cbn; [| by split].
  unfold or_else. cbn. by destruct (z =? 0)%Z.
Qed.

(** The selection pointers after a confirmed request.  A track request
    selects the track and keeps a playlist that was already selected,
    looking one up only when none was.  A playlist request selects the
    playlist, and the first fetched track when it is a play request with
    tracks; an expand leaves the selected track alone.  Either way the
    provider is set and the controls are told once that loading began. *)
Theorem selection_after_request
  playlistItem isExpand launchConfirmInfo playlistById tracks st :
  proceed launchConfirmInfo = true ->
  let r := playSelectedItem playlistItem isExpand launchConfirmInfo
             playlistById tracks st in
  (if String.eqb (item_type playlistItem) "track"
   then selectedTrackItem r.2 = Some playlistItem
        /\ selectedPlaylist r.2
           = match selectedPlaylist st with
             | Some p => Some p
             | None => playlistById
             end
   else selectedPlaylist r.2 = Some playlistItem
        /\ selectedTrackItem r.2
           = match tracks with
             | Some (t :: _) => if isExpand then selectedTrackItem st
                                else Some t
             | _ => selectedTrackItem st
             end)
  /\ currentProvider r.2 = PLAYLISTS_PROVIDER
  /\ controls r.2 = controls st ++ [true].
Proof.
  intros Hp. open_request st launchConfirmInfo. subst proceed_.
  branches; by repeat split.
Qed.

(** Where a playlist is played when a device is already active.  On the
    desktop player the first track is played inside the playlist, or on its
    own for the liked songs; on the web player the playlist is started with
    no track id, except for the liked songs, where the first track is
    named; an iTunes playlist is started at position 1. *)
Theorem playlist_play_routes
  playlistItem launchConfirmInfo playlistById t more st :
  proceed launchConfirmInfo = true ->
  isLaunching launchConfirmInfo = false ->
  String.eqb (item_type playlistItem) "track" = false ->
  let r := playSelectedItem playlistItem false launchConfirmInfo
             playlistById (Some (t :: more)) st in
  let liked := String.eqb (item_name playlistItem)
                 SPOTIFY_LIKED_SONGS_PLAYLIST_NAME in
  commands r.2
  = commands st
    ++ [if PlayerType_eqb (playerType playlistItem) MacItunesDesktop
        then PlayItunesTrackNumberInPlaylist (item_name playlistItem) 1
        else if PlayerName_eqb (playerName launchConfirmInfo) SpotifyDesktop
        then PlaySpotifyMacDesktopTrack (item_id t)
               (if liked then None else Some (item_id playlistItem))
        else LaunchAndPlaySpotifyTrack
               (if liked then item_id t else "") (item_id playlistItem)].
Proof.
  intros Hp Hl Htype. open_request st launchConfirmInfo.
  subst proceed_ launching. rewrite Htype. cbn.
  branches; reflexivity.
Qed.

End PlaybackMoreFacts.

Lemma play_without_launch_sets_no_timer_witness :
  let playlist := Playback.mkItem "playlist" "p1" "Focus" Playback.WebSpotify
                    None "" in
  let track := Playback.mkItem "track" "t1" "Song" Playback.WebSpotify
                 (Some 1%Z) "p1" in
  let st := Playback.mkState None None "" [] [] [] in
  let r := Playback.playSelectedItem "Liked Songs" "playlists" playlist false
             (Playback.mkConfirm true false Playback.SpotifyDesktop) None
             (Some [track]) st in
  Playback.timers r.2 = []
  /\ (length (Playback.commands r.2) <= 1)%nat.
Proof.
  intros playlist track st r.
  apply (play_without_launch_sets_no_timer "Liked Songs" "playlists" playlist
           false (Playback.mkConfirm true false Playback.SpotifyDesktop) None
           (Some [track]) st).
  reflexivity.
Defined.

Lemma play_waits_for_launch_witness :
  let playlist := Playback.mkItem "playlist" "p1" "Focus" Playback.WebSpotify
                    None "" in
  let track := Playback.mkItem "track" "t1" "Song" Playback.WebSpotify
                 (Some 1%Z) "p1" in
  let st := Playback.mkState None None "" [] [] [] in
  let r := Playback.playSelectedItem "Liked Songs" "playlists" track false
             (Playback.mkConfirm true true Playback.SpotifyDesktop)
             (Some playlist) None st in
  Playback.commands r.2 = [].
Proof.
  intros playlist track st r.
  apply (play_waits_for_launch "Liked Songs" "playlists" track false
           (Playback.mkConfirm true true Playback.SpotifyDesktop)
           (Some playlist) None st);
    reflexivity.
Defined.

Lemma itunes_track_plays_without_waiting_witness :
  let playlist := Playback.mkItem "playlist" "p1" "Library"
                    Playback.MacItunesDesktop None "" in
  let track := Playback.mkItem "track" "t1" "Song" Playback.MacItunesDesktop
                 (Some 0%Z) "p1" in
  let st := Playback.mkState None (Some playlist) "" [] [] [] in
  let r := Playback.playSelectedItem "Liked Songs" "playlists" track false
             (Playback.mkConfirm true true Playback.ItunesDesktop) None None
             st in
  Playback.commands r.2
  = [Playback.PlayItunesTrackNumberInPlaylist "Library" 1].
Proof.
  intros playlist track st r.
  apply (itunes_track_plays_without_waiting "Liked Songs" "playlists" track
           false (Playback.mkConfirm true true Playback.ItunesDesktop) None
           None st playlist);
    reflexivity.
Defined.

Lemma selection_after_request_witness :
  let playlist := Playback.mkItem "playlist" "p1" "Focus" Playback.WebSpotify
                    None "" in
  let other := Playback.mkItem "playlist" "p2" "Other" Playback.WebSpotify
                 None "" in
  let track := Playback.mkItem "track" "t1" "Song" Playback.WebSpotify
                 (Some 1%Z) "p1" in
  let st := Playback.mkState None (Some other) "" [] [] [] in
  let r := Playback.playSelectedItem "Liked Songs" "playlists" track false
             (Playback.mkConfirm true false Playback.SpotifyWeb)
             (Some playlist) None st in
  Playback.selectedTrackItem r.2 = Some track
  /\ Playback.selectedPlaylist r.2 = Some other.
Proof.
  intros playlist other track st r.
  apply (selection_after_request "Liked Songs" "playlists" track false
           (Playback.mkConfirm true false Playback.SpotifyWeb)
           (Some playlist) None st).
  reflexivity.
Defined.

Lemma playlist_play_routes_witness :
  let playlist := Playback.mkItem "playlist" "p1" "Focus" Playback.WebSpotify
                    None "" in
  let track := Playback.mkItem "track" "t1" "Song" Playback.WebSpotify
                 (Some 1%Z) "p1" in
  let st := Playback.mkState None None "" [] [] [] in
  let r := Playback.playSelectedItem "Liked Songs" "playlists" playlist false
             (Playback.mkConfirm true false Playback.SpotifyWeb) None
             (Some [track]) st in
  Playback.commands r.2 = [Playback.LaunchAndPlaySpotifyTrack "" "p1"].
Proof.
  intros playlist track st r.
  apply (playlist_play_routes "Liked Songs" "playlists" playlist
           (Playback.mkConfirm true false Playback.SpotifyWeb) None track []
           st);
    reflexivity.
Defined.

Lemma stamp_all_times_witness :
  let song := LikedSongTimes.mkTrack (Some "spotify:track:1") "1" None None
                false 0 0 0 0 0 in
  let bare := LikedSongTimes.mkTrack None "2" None None false 0 0 0 0 0 in
  exists t',
    nth_error (LikedSongTimes.stamp_all 3600 1000000 [song; bare]) 1 = Some t'
    /\ LikedSongTimes.start t' = 999939%Z
    /\ LikedSongTimes.end_ t' = 999879%Z
    /\ LikedSongTimes.id t' = "2".
Proof.
  intros song bare.
  destruct (stamp_all_times 3600 1000000 [song; bare] 1 bare eq_refl)
    as (t' & Hnth & Hstart & Hend & _ & _ & _ & Hid & _).
  exists t'. split; [exact Hnth |].
  rewrite Hend, Hstart, Hid. by repeat split.
Defined.

Lemma stamp_all_windows_witness :
  let song := LikedSongTimes.mkTrack (Some "spotify:track:1") "1" None None
                false 0 0 0 0 0 in
  let l := LikedSongTimes.stamp_all 0 1000 [song; song; song] in
  exists a b,
    nth_error l 0 = Some a
    /\ nth_error l 2 = Some b
    /\ (LikedSongTimes.start b < LikedSongTimes.end_ a)%Z.
Proof.
  intros song l. eexists. eexists.
  split; [reflexivity |]. split; [reflexivity |].
  apply (stamp_all_windows 0 1000 [song; song; song] 0 2);
    [lia | reflexivity | reflexivity].
Defined.

Lemma isNewHour_once_per_hour_witness :
  Telemetry.isNewHour_calls
    ["2020-05-01-10"; "2020-05-01-10"; "2020-05-01-10"]
    (Some "2020-05-01-09")
  = [true; false; false].
Proof.
  apply (isNewHour_once_per_hour "2020-05-01-10" 2 (Some "2020-05-01-09")).
  discriminate.
Defined.

Lemma toggle_sticks_witness :
  Js.VBool false
  = Telemetry.first_non_null
      (Js.VNull :: firstn 3 [Js.VNull; Js.VBool false; Js.VBool true]).
Proof.
  apply (toggle_sticks [Js.VNull; Js.VBool false; Js.VBool true] Js.VNull 2).
  reflexivity.
Defined.
